(** * Telegram status-issue synthesis (src/channels/plugins/status-issues/telegram.ts)

    A shallow embedding of [collectTelegramStatusIssues] and of the readers
    and classifiers it is built from, followed by the properties the
    specification states about them.

    The TypeScript code works on untyped values ([unknown]); they are
    embedded as the inductive type [JsValue].  The accumulator that the
    source mutates with [issues.push] is threaded explicitly through every
    check. *)

From Stdlib Require Import List String Ascii Bool ZArith QArith Lia.
From Stdlib Require Import Numbers.DecimalString.
Import ListNotations.

Local Close Scope Q_scope.
Local Open Scope bool_scope.
Local Open Scope list_scope.

Set Warnings "-register-all".

(** ** JavaScript values *)

(** A number is a finite rational, NaN, or an infinity.  Every finite double
    is a rational; the model is wider than the doubles, which is harmless
    for statements quantified over all numbers. *)
Inductive JsNumber : Type :=
| NFinite (q : Q)
| NNaN
| NInfinity (negative : bool).

Inductive JsValue : Type :=
| JUndefined
| JNull
| JBool (b : bool)
| JNumber (n : JsNumber)
| JString (s : string)
| JArray (items : list JsValue)
| JObject (props : list (string * JsValue)).

(** [T | null | undefined] *)
Inductive Nullish (A : Type) : Type :=
| Undefined
| Null
| Value (a : A).

Arguments Undefined {A}.
Arguments Null {A}.
Arguments Value {A} a.

(** [x ?? null] for [x : T | undefined] *)
Definition orNull {A : Type} (x : option A) : Nullish A :=
  match x with
  | Some a => Value a
  | None => Null
  end.

(** [x ?? undefined] for [x : T | null | undefined] *)
Definition orUndefined {A : Type} (x : Nullish A) : option A :=
  match x with
  | Value a => Some a
  | _ => None
  end.

(** [x != null] *)
Definition notNullish {A : Type} (x : Nullish A) : bool :=
  match x with
  | Value _ => true
  | _ => false
  end.

(** Property lookup.  An object is a list of its own properties; the first
    binding of a key is the one that is read. *)
Fixpoint lookupProp (key : string) (props : list (string * JsValue)) : JsValue :=
  match props with
  | [] => JUndefined
  | (k, v) :: rest => if String.eqb k key then v else lookupProp key rest
  end.

(** [value.key]; reading a property that a value does not have gives
    [undefined].  The code reads properties only behind the type guard
    [isRecord]. *)
Definition getProp (value : JsValue) (key : string) : JsValue :=
  match value with
  | JObject props => lookupProp key props
  | _ => JUndefined
  end.

(** [v === true] *)
Definition strictTrue (v : JsValue) : bool :=
  match v with
  | JBool true => true
  | _ => false
  end.

(** [typeof v === "boolean" ? v : undefined] *)
Definition booleanOrUndefined (v : JsValue) : option bool :=
  match v with
  | JBool b => Some b
  | _ => None
  end.

(** [typeof v === "number" && Number.isFinite(v)] *)
Definition isFiniteNumber (v : JsValue) : option JsNumber :=
  match v with
  | JNumber (NFinite q) => Some (NFinite q)
  | _ => None
  end.

(** [n === z] for an integer literal [z] *)
Definition numberStrictEq (n : JsNumber) (z : Z) : bool :=
  match n with
  | NFinite q => Qeq_bool q (inject_Z z)
  | _ => false
  end.

(** Truthiness of a number: [0] and [NaN] are falsy. *)
Definition numberTruthy (n : JsNumber) : bool :=
  match n with
  | NFinite q => negb (Qnum q =? 0)%Z
  | NNaN => false
  | NInfinity _ => true
  end.

(** [n > 0] *)
Definition numberGtZero (n : JsNumber) : bool :=
  match n with
  | NFinite q => (0 <? Qnum q)%Z
  | NNaN => false
  | NInfinity negative => negb negative
  end.

(** Truthiness of a string: only the empty string is falsy. *)
Definition stringTruthy (s : string) : bool :=
  match s with
  | EmptyString => false
  | String _ _ => true
  end.

(** ** Strings

    Strings are sequences of 8-bit units.  [toLowerCase] maps the ASCII
    capitals to their lower-case letters and leaves every other unit as it
    is, which is what [String.prototype.toLowerCase] does on ASCII text. *)

Definition lowerUnit (c : ascii) : ascii :=
  let n := N_of_ascii c in
  if ((65 <=? n) && (n <=? 90))%N then ascii_of_N (n + 32) else c.

Fixpoint toLowerCase (s : string) : string :=
  match s with
  | EmptyString => EmptyString
  | String c rest => String (lowerUnit c) (toLowerCase rest)
  end.

(** [s.startsWith(p)] *)
Fixpoint startsWith (s p : string) {struct p} : bool :=
  match p with
  | EmptyString => true
  | String cp p' =>
      match s with
      | EmptyString => false
      | String cs s' => Ascii.eqb cs cp && startsWith s' p'
      end
  end.

(** [s.includes(p)] *)
Fixpoint includes (s p : string) : bool :=
  startsWith s p ||
  match s with
  | EmptyString => false
  | String _ s' => includes s' p
  end.

(** A template literal: the concatenation of its parts. *)
Definition template (parts : list string) : string :=
  String.concat EmptyString parts.

(** The double-quote character, as a one-character string. *)
Definition dquote : string := String (ascii_of_nat 34) EmptyString.

(** Largest integer below which every integer is a double and prints as
    its decimal digits. *)
Definition MAX_SAFE_INTEGER : Z := 9007199254740991.

(** ** Data model of telegram.ts *)

(** [TelegramAccountStatus]: every field is [unknown]. *)
Record TelegramAccountStatus : Type := mkAccountStatus {
  accountId : JsValue;
  enabled : JsValue;
  configured : JsValue;
  allowUnmentionedGroups : JsValue;
  audit : JsValue;
  probe : JsValue;
  running : JsValue;
  connected : JsValue;
  lastError : JsValue
}.

(** An element of [TelegramGroupMembershipAuditSummary["groups"]]. *)
Record TelegramGroupAuditEntry : Type := mkGroupEntry {
  chatId : string;
  groupOk : option bool;
  groupStatus : Nullish string;
  groupError : Nullish string;
  matchKey : option string;
  matchSource : option string
}.

Record TelegramGroupMembershipAuditSummary : Type := mkAuditSummary {
  unresolvedGroups : option JsNumber;
  hasWildcardUnmentionedGroups : option bool;
  groups : option (list TelegramGroupAuditEntry)
}.

Record TelegramProbeSummary : Type := mkProbeSummary {
  probeOk : option bool;
  probeStatus : Nullish JsNumber;
  probeError : Nullish string
}.

Inductive IssueKind : Type := KindConfig | KindRuntime | KindAuth.

(** [ChannelStatusIssue], with the fields this file fills in.  The fields
    [accountId] and [fix] of the source are [issueAccountId] and [issueFix]
    here. *)
Record ChannelStatusIssue : Type := mkIssue {
  channel : string;
  issueAccountId : string;
  kind : IssueKind;
  message : string;
  issueFix : string
}.

(** The label argument of [formatProbeIssueLabel]: ["auth" | "runtime"]. *)
Inductive ProbeKindLabel : Type := LabelAuth | LabelRuntime.

(** [issues.push(issue)] *)
Definition push (issues : list ChannelStatusIssue) (issue : ChannelStatusIssue)
  : list ChannelStatusIssue :=
  issues ++ [issue].

(** [v === true] and [v === false] for [v : boolean | undefined] *)
Definition optionIsTrue (v : option bool) : bool :=
  match v with
  | Some true => true
  | _ => false
  end.

Definition optionIsFalse (v : option bool) : bool :=
  match v with
  | Some false => true
  | _ => false
  end.

(** ** The helpers of shared.js

    telegram.ts imports four helpers from ./shared.js, a file that is not
    part of the sources at hand.  The embedding of telegram.ts below takes
    them as parameters; the definitions of this module follow the contracts
    the specification gives for them and are used where a property depends
    on what a helper returns. *)
Module Shared.

(** Modelled from the spec: [isRecord] of shared.js, which is missing from
    the sources: true iff the value is a non-null, non-array structural
    record. *)
Definition isRecord (value : JsValue) : bool :=
  match value with
  | JObject _ => true
  | _ => false
  end.

(** Modelled from the spec: [asString] of shared.js, which is missing from
    the sources: returns the value if it is already a string, else absent;
    numbers and booleans are not coerced. *)
Definition asString (value : JsValue) : option string :=
  match value with
  | JString s => Some s
  | _ => None
  end.

(** Modelled from the spec: [resolveEnabledConfiguredAccountId] of
    shared.js, which is missing from the sources: returns the account id
    only when [enabled === true] and [configured === true] and the id is a
    non-empty string. *)
Definition resolveEnabledConfiguredAccountId (account : TelegramAccountStatus)
  : option string :=
  match accountId account with
  | JString id =>
      if strictTrue (enabled account) && strictTrue (configured account)
         && stringTruthy id
      then Some id
      else None
  | _ => None
  end.

(** Modelled from the spec: [appendMatchMetadata] of shared.js, which is
    missing from the sources: returns the message unchanged if [matchKey]
    and [matchSource] are both absent, and otherwise appends a trailing
    descriptor of the rule that matched.  The specification does not give
    the text of the descriptor, so it is the parameter [descriptor]. *)
Definition appendMatchMetadata
  (descriptor : option string -> option string -> string)
  (message : string) (matchKey matchSource : option string) : string :=
  match matchKey, matchSource with
  | None, None => message
  | _, _ => (message ++ descriptor matchKey matchSource)%string
  end.

End Shared.

(** ** Inputs of the scenarios *)

Module Scenario.

Local Open Scope string_scope.

(** [{accountId:"a2", enabled:true, configured:true,
      probe:{ok:false, status:401, error:"Unauthorized"}}] *)
Definition accountB : JsValue :=
  JObject [("accountId", JString "a2");
           ("enabled", JBool true);
           ("configured", JBool true);
           ("probe", JObject [("ok", JBool false);
                              ("status", JNumber (NFinite (inject_Z 401)));
                              ("error", JString "Unauthorized")])].

(** The same snapshot with its properties listed in another order and the
    status written as another fraction of the same value. *)
Definition accountB_reordered : JsValue :=
  JObject [("probe", JObject [("error", JString "Unauthorized");
                              ("status", JNumber (NFinite (Qmake 802 2)));
                              ("ok", JBool false)]);
           ("configured", JBool true);
           ("enabled", JBool true);
           ("accountId", JString "a2")].

(** [{accountId:"a4", enabled:false, configured:true}] *)
Definition accountD : JsValue :=
  JObject [("accountId", JString "a4");
           ("enabled", JBool false);
           ("configured", JBool true)].

(** [{accountId:"a1", enabled:true, configured:true,
      allowUnmentionedGroups:true}] *)
Definition accountA : JsValue :=
  JObject [("accountId", JString "a1");
           ("enabled", JBool true);
           ("configured", JBool true);
           ("allowUnmentionedGroups", JBool true)].

(** [{accountId:"a3", enabled:true, configured:true,
      probe:{ok:false, error:"ECONNREFUSED"}}] *)
Definition accountC : JsValue :=
  JObject [("accountId", JString "a3");
           ("enabled", JBool true);
           ("configured", JBool true);
           ("probe", JObject [("ok", JBool false);
                              ("error", JString "ECONNREFUSED")])].

(** [{accountId:"a5", enabled:true, configured:true,
      audit:{groups:[{chatId:"-100", ok:false, status:"kicked"}]}}] *)
Definition accountE : JsValue :=
  JObject [("accountId", JString "a5");
           ("enabled", JBool true);
           ("configured", JBool true);
           ("audit",
            JObject [("groups",
                      JArray [JObject [("chatId", JString "-100");
                                       ("ok", JBool false);
                                       ("status", JString "kicked")]])])].

(** The issue of scenario B. *)
Definition issueB : ChannelStatusIssue :=
  {| channel := "telegram";
     issueAccountId := "a2";
     kind := KindAuth;
     message := "Token validation failed (HTTP 401): Unauthorized";
     issueFix :=
       "Update channels.telegram.* token from BotFather for this bot and restart the gateway."
  |}.

(** A descriptor and a number printer to run the code with. *)
Definition noDescriptor (matchKey matchSource : option string) : string := "".
Definition noInexact (q : Q) : string := "".

End Scenario.

(** Case analysis on the key of a property lookup in a literal object. *)
Ltac by_key key :=
  cbn [lookupProp];
  repeat match goal with
         | |- context [String.eqb ?k key] =>
             destruct (String.eqb_spec k key) as [<- | _];
             [cbv | cbn [lookupProp]]
         end.

(** ** The Convex memory backend (class [ConvexMemoryBackend])

    The backend talks to two collaborators: the Convex client and the file
    system.  Their answers are parameters of the methods; a call that
    rejects or throws is the outcome [Throws]. *)
Module Convex.

Local Open Scope string_scope.

(** The outcome of a method: the value it resolves to, or the message of
    the [Error] it throws. *)
Inductive Outcome (A : Type) : Type :=
| Returns (value : A)
| Throws (errorMessage : string).

Arguments Returns {A} value.
Arguments Throws {A} errorMessage.

(** White space and line terminators among the ASCII units: TAB, LF, VT,
    FF, CR and the space. *)
Definition isWhiteSpace (c : ascii) : bool :=
  let n := N_of_ascii c in
  (((9 <=? n) && (n <=? 13)) || (n =? 32))%N.

Fixpoint trimStart (s : string) : string :=
  match s with
  | EmptyString => EmptyString
  | String c rest => if isWhiteSpace c then trimStart rest else s
  end.

Fixpoint trimEnd (s : string) : string :=
  match s with
  | EmptyString => EmptyString
  | String c rest =>
      match trimEnd rest with
      | EmptyString => if isWhiteSpace c then EmptyString else String c EmptyString
      | kept => String c kept
      end
  end.

(** [s.trim()] *)
Definition trim (s : string) : string := trimEnd (trimStart s).

(** The line feed, the separator of [split] and [join] in this class. *)
Definition LF : ascii := ascii_of_nat 10.

(** [s.split(sep)] for a separator of one unit. *)
Fixpoint split (sep : ascii) (s : string) : list string :=
  match s with
  | EmptyString => [EmptyString]
  | String c rest =>
      if Ascii.eqb c sep then EmptyString :: split sep rest
      else
        match split sep rest with
        | first :: others => String c first :: others
        | [] => [String c EmptyString]
        end
  end.

(** [xs.join(sep)] for a separator of one unit. *)
Definition join (sep : ascii) (xs : list string) : string :=
  String.concat (String sep EmptyString) xs.

(** The relative index of [Array.prototype.slice] for an integer argument:
    a negative index counts from the end, and the result is clamped to
    [0 .. len]. *)
Definition relativeIndex (len i : Z) : Z :=
  if (i <? 0)%Z then Z.max (len + i) 0 else Z.min i len.

(** [xs.slice(start, end)] for integer arguments. *)
Definition slice {A : Type} (xs : list A) (start finish : Z) : list A :=
  let len := Z.of_nat (List.length xs) in
  let k := relativeIndex len start in
  let final := relativeIndex len finish in
  firstn (Z.to_nat (Z.max (final - k) 0)) (skipn (Z.to_nat k) xs).

(** An element of [response.results]. *)
Record SearchHit : Type := mkSearchHit {
  content : string;
  sourceType : string;
  sourcePath : string;
  score : JsNumber;
  title : option string
}.

(** The argument of the search action. *)
Record SearchArgs : Type := mkSearchArgs {
  argAgentId : string;
  argQuery : string;
  argLimit : option JsNumber;
  argMinScore : option JsNumber
}.

(** [opts] of [search]. *)
Record SearchOptions : Type := mkSearchOptions {
  maxResults : option JsNumber;
  minScore : option JsNumber;
  sessionKey : option string
}.

Inductive MemorySource : Type := SourceSessions | SourceMemory.

Record MemorySearchResult : Type := mkSearchResult {
  path : string;
  startLine : Z;
  endLine : Z;
  resultScore : JsNumber;
  snippet : string;
  source : MemorySource
}.

(** The callback of [results.map] in [search]. *)
Definition toSearchResult (r : SearchHit) : MemorySearchResult :=
  {| path := sourcePath r;
     startLine := 1;
     endLine := Z.of_nat (List.length (split LF (content r)));
     resultScore := score r;
     snippet := content r;
     source := if String.eqb (sourceType r) "session" then SourceSessions
               else SourceMemory |}.

(** [search(query, opts)].  [raceAction args] is the outcome of the race
    between [client.action(publicSearch, args)] and the timer of
    [SEARCH_TIMEOUT_MS], whose rejection is an outcome [Throws]. *)
Definition search (agentId : string)
  (raceAction : SearchArgs -> Outcome (list SearchHit))
  (query : string) (opts : option SearchOptions)
  : Outcome (list MemorySearchResult) :=
  let trimmed := trim query in
  if negb (stringTruthy trimmed) then Returns []
  else
    let response :=
      raceAction {| argAgentId := agentId;
                    argQuery := trimmed;
                    argLimit := match opts with
                                | Some o => maxResults o
                                | None => None
                                end;
                    argMinScore := match opts with
                                   | Some o => minScore o
                                   | None => None
                                   end |} in
    match response with
    | Throws e => Throws e
    | Returns results => Returns (map toSearchResult results)
    end.

(** [params] of [readFile]; [from] and [lines] are integers. *)
Record ReadFileParams : Type := mkReadFileParams {
  relPath : option string;
  from : option Z;
  lines : option Z
}.

(** [readFile(params)].  [pathResolve] is [path.resolve] and [fsReadFile]
    is [fs.readFile(_, "utf-8")], [None] when it rejects. *)
Definition readFile (workspaceDir : option string)
  (pathResolve : string -> string -> string)
  (fsReadFile : string -> option string)
  (params : ReadFileParams) : Outcome (string * string) :=
  let relPath := option_map trim (relPath params) in
  match relPath with
  | None => Throws "path required"
  | Some relPath =>
      if negb (stringTruthy relPath) then Throws "path required"
      else
        match workspaceDir with
        | None => Throws "workspace dir not configured for convex memory backend"
        | Some workspaceDir =>
            if negb (stringTruthy workspaceDir)
            then Throws "workspace dir not configured for convex memory backend"
            else
              let absPath := pathResolve workspaceDir relPath in
              if negb (startsWith absPath workspaceDir)
              then Throws "path escapes workspace"
              else
                match fsReadFile absPath with
                | None => Throws ("file not found: " ++ relPath)
                | Some text =>
                    let allLines := split LF text in
                    let start := match from params with
                                 | Some n => n
                                 | None => 0%Z
                                 end in
                    let count := match lines params with
                                 | Some n => n
                                 | None => Z.of_nat (List.length allLines)
                                 end in
                    let sliced := slice allLines start (start + count)%Z in
                    Returns (join LF sliced, relPath)
                end
        end
  end.

(** Notions used to state the properties of the backend. *)


(** The number of units of [s] equal to [sep]. *)
Fixpoint countUnit (sep : ascii) (s : string) : nat :=
  match s with
  | EmptyString => 0
  | String c rest => (if Ascii.eqb c sep then 1 else 0) + countUnit sep rest
  end.

(** The four guards of [readFile] pass for [rel], and the file read has
    the text [fileText]. *)
Definition servesFile (workspaceDir : string)
  (pathResolve : string -> string -> string)
  (fsReadFile : string -> option string) (rel fileText : string) : Prop :=
  trim rel <> "" /\
  workspaceDir <> "" /\
  startsWith (pathResolve workspaceDir (trim rel)) workspaceDir = true /\
  fsReadFile (pathResolve workspaceDir (trim rel)) = Some fileText.

(** A workspace with one file of three lines, for running the methods. *)
Definition demoResolve (dir rel : string) : string := dir ++ "/" ++ rel.

Definition demoText : string :=
  String.concat (String LF EmptyString) ["alpha"; "beta"; "gamma"].

Definition demoFs (absPath : string) : option string :=
  if String.eqb absPath "/ws/notes.md" then Some demoText else None.

Definition demoHit : SearchHit :=
  {| content := demoText;
     sourceType := "session";
     sourcePath := "notes.md";
     score := NFinite (inject_Z 1);
     title := None |}.

Definition demoAction (args : SearchArgs) : Outcome (list SearchHit) :=
  Returns [demoHit].

End Convex.

(** ** The logging wrapper of the Telegram API calls
       ([withTelegramApiErrorLogging])

    The wrapper awaits [fn()] and, when that rejects, calls up to three
    callbacks before it throws the error again.  A computation is embedded
    as the list of the callbacks it called, in order, with what it ends in:
    a value or a thrown error. *)
Module ApiLogging.

Section Wrapper.

(** What is thrown, and what [fn] resolves to. *)
Variable Err : Type.
Variable T : Type.

(** [formatErrorMessage] of ../infra/errors.js and [danger] of
    ../globals.js. *)
Variable formatErrorMessage : Err -> string.
Variable danger : string -> string.

Local Open Scope string_scope.

(** The function that [resolveTelegramApiLogger] returns: the [logger]
    argument, [runtime.error], or the wrapper around
    [fallbackLogger.error]. *)
Inductive Sink : Type := SinkLogger | SinkRuntimeError | SinkFallback.

(** A call of a callback, with its arguments. *)
Inductive Call : Type :=
| CallStatusHandler (operation : string) (err : Err)
| CallShouldLog (err : Err)
| CallLog (sink : Sink) (message : string).

(** A computation: the calls made, then a value or a thrown error. *)
Definition Run (A : Type) : Type := (list Call * (A + Err))%type.

Definition ret {A : Type} (a : A) : Run A := ([], inl a).

Definition throw {A : Type} (e : Err) : Run A := ([], inr e).

Definition bind {A B : Type} (m : Run A) (k : A -> Run B) : Run B :=
  match m with
  | (calls, inl a) => let (calls', r) := k a in ((calls ++ calls')%list, r)
  | (calls, inr e) => (calls, inr e)
  end.

(** A callback that returns nothing: [None] when it returns, [Some e] when
    it throws [e]. *)
Definition Callback : Type := option Err.

(** The call [c] of a callback with the outcome [outcome]. *)
Definition call (c : Call) (outcome : Callback) : Run unit :=
  match outcome with
  | None => ([c], inl tt)
  | Some e => ([c], inr e)
  end.

(** The call of [shouldLog], which returns a boolean or throws. *)
Definition callShouldLog (err : Err) (outcome : bool + Err) : Run bool :=
  ([CallShouldLog err], outcome).

(** [RuntimeEnv] with the two properties the wrapper reads.  A property
    that is absent, or that is not a function, is [None]. *)
Record RuntimeEnv : Type := mkRuntimeEnv {
  runtimeError : option (string -> Callback);
  setTelegramApiErrorStatus : option (string -> Err -> Callback)
}.

(** [fallbackLogger.error] *)
Variable fallbackError : string -> Callback.

Definition resolveTelegramApiLogger (runtime : option RuntimeEnv)
  (logger : option (string -> Callback)) : Sink * (string -> Callback) :=
  match logger with
  | Some logger => (SinkLogger, logger)
  | None =>
      match runtime with
      | Some r =>
          match runtimeError r with
          | Some error => (SinkRuntimeError, error)
          | None => (SinkFallback, fun message => fallbackError message)
          end
      | None => (SinkFallback, fun message => fallbackError message)
      end
  end.

Definition resolveTelegramApiErrorStatus (runtime : option RuntimeEnv)
  : option (string -> Err -> Callback) :=
  match runtime with
  | Some r => setTelegramApiErrorStatus r
  | None => None
  end.

(** [withTelegramApiErrorLogging({operation, fn, runtime, logger,
    shouldLog})]; [fn] is what [await fn()] ends in. *)
Definition withTelegramApiErrorLogging (operation : string) (fn : T + Err)
  (runtime : option RuntimeEnv) (logger : option (string -> Callback))
  (shouldLog : option (Err -> bool + Err)) : Run T :=
  match fn with
  | inl value => ret value
  | inr err =>
      bind (match resolveTelegramApiErrorStatus runtime with
            | Some handler =>
                call (CallStatusHandler operation err) (handler operation err)
            | None => ret tt
            end)
        (fun _ =>
      bind (match shouldLog with
            | None => ret true
            | Some shouldLog => callShouldLog err (shouldLog err)
            end)
        (fun doLog =>
      bind (if doLog then
              let errText := formatErrorMessage err in
              let (sink, log) := resolveTelegramApiLogger runtime logger in
              let message :=
                danger (template ["telegram "; operation; " failed: "; errText]) in
              call (CallLog sink message) (log message)
            else ret tt)
        (fun _ => throw err)))
  end.

(** Notions used to state the properties of the wrapper. *)

(** The line that the wrapper logs for [operation] and [err]. *)
Definition logLine (operation : string) (err : Err) : string :=
  danger (template ["telegram "; operation; " failed: "; formatErrorMessage err]).

(** One of the callbacks that the wrapper is given throws [e] when it is
    called for [operation] and [err]. *)
Definition callbackThrows (operation : string) (err : Err)
  (runtime : option RuntimeEnv) (logger : option (string -> Callback))
  (shouldLog : option (Err -> bool + Err)) (e : Err) : Prop :=
  (exists handler,
     resolveTelegramApiErrorStatus runtime = Some handler /\
     handler operation err = Some e) \/
  (exists f, shouldLog = Some f /\ f err = inr e) \/
  snd (resolveTelegramApiLogger runtime logger) (logLine operation err) = Some e.

(** A list with [x] in it, or without. *)
Definition optional {A : Type} (present : bool) (x : A) : list A :=
  if present then [x] else [].

End Wrapper.

End ApiLogging.

(** ** telegram.ts *)

Section Telegram.

(** The imports from ./shared.js. *)
Variable isRecord : JsValue -> bool.
Variable asString : JsValue -> option string.
Variable resolveEnabledConfiguredAccountId : TelegramAccountStatus -> option string.
Variable appendMatchMetadata : string -> option string -> option string -> string.

(** How a finite number that is not a safe integer prints in a template
    literal (Number::toString); the code leaves this to the language. *)
Variable numberToStringInexact : Q -> string.

Local Open Scope string_scope.

(** [`${n}`] *)
Definition numberToString (n : JsNumber) : string :=
  match n with
  | NNaN => "NaN"
  | NInfinity false => "Infinity"
  | NInfinity true => "-Infinity"
  | NFinite q =>
      let r := Qred q in
      if (Z.pos (Qden r) =? 1)%Z && (Z.abs (Qnum r) <=? MAX_SAFE_INTEGER)%Z
      then NilZero.string_of_int (Z.to_int (Qnum r))
      else numberToStringInexact r
  end.

Definition readTelegramAccountStatus (value : JsValue) : option TelegramAccountStatus :=
  if negb (isRecord value) then None
  else Some {|
    accountId := getProp value "accountId";
    enabled := getProp value "enabled";
    configured := getProp value "configured";
    allowUnmentionedGroups := getProp value "allowUnmentionedGroups";
    audit := getProp value "audit";
    probe := getProp value "probe";
    running := getProp value "running";
    connected := getProp value "connected";
    lastError := getProp value "lastError"
  |}.

(** The callback given to [groupsRaw.map]; [None] is its [null]. *)
Definition readGroupEntry (entry : JsValue) : option TelegramGroupAuditEntry :=
  if negb (isRecord entry) then None
  else
    let chatId := asString (getProp entry "chatId") in
    match chatId with
    | None => None
    | Some chatId =>
        if negb (stringTruthy chatId) then None
        else
          let ok := booleanOrUndefined (getProp entry "ok") in
          let status := orNull (asString (getProp entry "status")) in
          let error := orNull (asString (getProp entry "error")) in
          let matchKey := asString (getProp entry "matchKey") in
          let matchSource := asString (getProp entry "matchSource") in
          Some {|
            chatId := chatId;
            groupOk := ok;
            groupStatus := status;
            groupError := error;
            matchKey := matchKey;
            matchSource := matchSource
          |}
    end.

(** [xs.map(f).filter(Boolean)] for a callback that returns an object or
    [null]. *)
Fixpoint mapFilterBoolean {A B : Type} (f : A -> option B) (xs : list A) : list B :=
  match xs with
  | [] => []
  | x :: rest =>
      match f x with
      | Some y => y :: mapFilterBoolean f rest
      | None => mapFilterBoolean f rest
      end
  end.

Definition readTelegramGroupMembershipAuditSummary (value : JsValue)
  : TelegramGroupMembershipAuditSummary :=
  if negb (isRecord value) then
    {| unresolvedGroups := None;
       hasWildcardUnmentionedGroups := None;
       groups := None |}
  else
    let unresolvedGroups := isFiniteNumber (getProp value "unresolvedGroups") in
    let hasWildcardUnmentionedGroups :=
      booleanOrUndefined (getProp value "hasWildcardUnmentionedGroups") in
    let groupsRaw := getProp value "groups" in
    let groups :=
      match groupsRaw with
      | JArray items => Some (mapFilterBoolean readGroupEntry items)
      | _ => None
      end in
    {| unresolvedGroups := unresolvedGroups;
       hasWildcardUnmentionedGroups := hasWildcardUnmentionedGroups;
       groups := groups |}.

Definition readTelegramProbeSummary (value : JsValue) : option TelegramProbeSummary :=
  if negb (isRecord value) then None
  else Some {|
    probeOk := booleanOrUndefined (getProp value "ok");
    probeStatus := orNull (isFiniteNumber (getProp value "status"));
    probeError := orNull (asString (getProp value "error"))
  |}.

(** [status === z] for [status : number | null | undefined] *)
Definition statusStrictEq (status : Nullish JsNumber) (z : Z) : bool :=
  match status with
  | Value n => numberStrictEq n z
  | _ => false
  end.

(** [normalized?.includes(phrase) === true] *)
Definition optionIncludes (normalized : option string) (phrase : string) : bool :=
  match normalized with
  | Some text => includes text phrase
  | None => false
  end.

Definition isAuthErrorSummary (errorText : option string) (status : Nullish JsNumber)
  : bool :=
  let normalized := option_map toLowerCase errorText in
  statusStrictEq status 401 ||
  statusStrictEq status 403 ||
  optionIncludes normalized "unauthorized" ||
  optionIncludes normalized "invalid token" ||
  optionIncludes normalized "not authorized" ||
  optionIncludes normalized "bad request".

Definition isNetworkErrorSummary (errorText : option string) (status : Nullish JsNumber)
  : bool :=
  if notNullish status then false
  else
    let normalized := option_map toLowerCase errorText in
    match normalized with
    | None => true
    | Some normalized =>
        if negb (stringTruthy normalized) then true
        else
          includes normalized "econnrefused" ||
          includes normalized "econnreset" ||
          includes normalized "enotfound" ||
          includes normalized "eai_again" ||
          includes normalized "etimedout" ||
          includes normalized "net::err" ||
          includes normalized "getaddrinfo" ||
          includes normalized "network is down" ||
          includes normalized "socket hang up" ||
          includes normalized "fetch failed" ||
          includes normalized "dns" ||
          includes normalized "network" ||
          includes normalized "timeout"
    end.

Definition isDnsResolutionFailure (errorText : option string) : bool :=
  let normalized :=
    match option_map toLowerCase errorText with
    | Some text => text
    | None => ""
    end in
  includes normalized "could not resolve host" ||
  includes normalized "enotfound" ||
  includes normalized "eai_again" ||
  includes normalized "getaddrinfo" ||
  includes normalized "dns" ||
  includes normalized "name or service not known" ||
  includes normalized "temporarily unresolvable".

Definition formatProbeIssueLabel (summary : TelegramProbeSummary)
  (kindLabel : ProbeKindLabel) : string :=
  let status :=
    match probeStatus summary with
    | Value n => template [" (HTTP "; numberToString n; ")"]
    | _ => ""
    end in
  match probeError summary with
  | Value (String c rest as error) =>
      match kindLabel with
      | LabelAuth => template ["Token validation failed"; status; ": "; error]
      | LabelRuntime => template [error; status]
      end
  | _ =>
      match kindLabel with
      | LabelAuth => template ["Token validation failed"; status]
      | LabelRuntime => template ["Probe failed"; status]
      end
  end.

(** *** The body of the loop over the accounts

    Each block of the loop body of [collectTelegramStatusIssues] is a
    function from the accumulator [issues] to the accumulator, in the order
    of the source. *)

(** Lines 182-191. *)
Definition checkAllowUnmentionedGroups (accountId : string)
  (account : TelegramAccountStatus) (issues : list ChannelStatusIssue)
  : list ChannelStatusIssue :=
  if strictTrue (allowUnmentionedGroups account) then
    push issues {|
      channel := "telegram";
      issueAccountId := accountId;
      kind := KindConfig;
      message :=
        "Config allows unmentioned group messages (requireMention=false). Telegram Bot API privacy mode will block most group messages unless disabled.";
      issueFix :=
        "In BotFather run /setprivacy → Disable for this bot (then restart the gateway)."
    |}
  else issues.

(** Lines 194-203. *)
Definition checkWildcardUnmentionedGroups (accountId : string)
  (audit : TelegramGroupMembershipAuditSummary) (issues : list ChannelStatusIssue)
  : list ChannelStatusIssue :=
  if optionIsTrue (hasWildcardUnmentionedGroups audit) then
    push issues {|
      channel := "telegram";
      issueAccountId := accountId;
      kind := KindConfig;
      message :=
        template ["Telegram groups config uses "; dquote; "*"; dquote;
                  " with requireMention=false; membership probing is not possible without explicit group IDs."];
      issueFix :=
        "Add explicit numeric group ids under channels.telegram.groups (or per-account groups) to enable probing."
    |}
  else issues.

(** Lines 204-212. *)
Definition checkUnresolvedGroups (accountId : string)
  (audit : TelegramGroupMembershipAuditSummary) (issues : list ChannelStatusIssue)
  : list ChannelStatusIssue :=
  match unresolvedGroups audit with
  | Some n =>
      if numberTruthy n && numberGtZero n then
        push issues {|
          channel := "telegram";
          issueAccountId := accountId;
          kind := KindConfig;
          message :=
            template ["Some configured Telegram groups are not numeric IDs (unresolvedGroups=";
                      numberToString n;
                      "). Membership probe can only check numeric group IDs."];
          issueFix :=
            "Use numeric chat IDs (e.g. -100...) as keys in channels.telegram.groups for requireMention=false groups."
        |}
      else issues
  | None => issues
  end.

(** The issue pushed at lines 217-229 for one group. *)
Definition groupIssue (accountId : string) (group : TelegramGroupAuditEntry)
  : ChannelStatusIssue :=
  let status :=
    match groupStatus group with
    | Value (String _ _ as s) => template [" status="; s]
    | _ => ""
    end in
  let err :=
    match groupError group with
    | Value (String _ _ as e) => template [": "; e]
    | _ => ""
    end in
  let baseMessage :=
    template ["Group "; chatId group; " not reachable by bot."; status; err] in
  {| channel := "telegram";
     issueAccountId := accountId;
     kind := KindRuntime;
     message := appendMatchMetadata baseMessage (matchKey group) (matchSource group);
     issueFix :=
       "Invite the bot to the group, then DM the bot once (/start) and restart the gateway."
  |}.

(** One iteration of the loop of lines 213-230. *)
Definition groupStep (accountId : string) (issues : list ChannelStatusIssue)
  (group : TelegramGroupAuditEntry) : list ChannelStatusIssue :=
  if optionIsTrue (groupOk group) then issues
  else push issues (groupIssue accountId group).

(** Lines 213-230: [for (const group of audit.groups ?? [])]. *)
Definition checkGroups (accountId : string)
  (audit : TelegramGroupMembershipAuditSummary) (issues : list ChannelStatusIssue)
  : list ChannelStatusIssue :=
  let groups :=
    match groups audit with
    | Some gs => gs
    | None => []
    end in
  fold_left (groupStep accountId) groups issues.

(** Lines 232-246. *)
Definition checkRuntimeConnection (accountId : string)
  (account : TelegramAccountStatus) (issues : list ChannelStatusIssue)
  : list ChannelStatusIssue :=
  let running := strictTrue (running account) in
  let connected := strictTrue (connected account) in
  let lastError := asString (lastError account) in
  if running && negb connected then
    let isDnsIssue :=
      isDnsResolutionFailure
        (Some match lastError with Some e => e | None => "" end) in
    push issues {|
      channel := "telegram";
      issueAccountId := accountId;
      kind := KindRuntime;
      message :=
        template ["Telegram runtime disconnected";
                  match lastError with
                  | Some (String _ _ as e) => template [": "; e]
                  | _ => "."
                  end];
      issueFix :=
        if isDnsIssue
        then "Restore DNS/network access from this host to api.telegram.org (or set channels.telegram.proxy / OPENCLAW_TELEGRAM_PROXY) and restart the gateway."
        else "Check Telegram API connectivity and token validity, then restart the gateway."
    |}
  else issues.

(** The three issues of the probe-failure check, lines 252-258, 265-273 and
    275-281. *)
Definition probeAuthIssue (accountId : string) (probe : TelegramProbeSummary)
  : ChannelStatusIssue :=
  {| channel := "telegram";
     issueAccountId := accountId;
     kind := KindAuth;
     message := formatProbeIssueLabel probe LabelAuth;
     issueFix :=
       "Update channels.telegram.* token from BotFather for this bot and restart the gateway."
  |}.

Definition probeNetworkIssue (accountId : string) (probe : TelegramProbeSummary)
  : ChannelStatusIssue :=
  let isDnsFailure := isDnsResolutionFailure (orUndefined (probeError probe)) in
  {| channel := "telegram";
     issueAccountId := accountId;
     kind := KindRuntime;
     message :=
       template ["Telegram bot API probe is not reachable: ";
                 formatProbeIssueLabel probe LabelRuntime];
     issueFix :=
       if isDnsFailure
       then "Restore DNS/network access from this host to api.telegram.org (or set channels.telegram.proxy / OPENCLAW_TELEGRAM_PROXY)."
       else "Check gateway network/DNS egress to api.telegram.org and retry after connectivity is restored."
  |}.

Definition probeGenericIssue (accountId : string) (probe : TelegramProbeSummary)
  : ChannelStatusIssue :=
  {| channel := "telegram";
     issueAccountId := accountId;
     kind := KindRuntime;
     message :=
       template ["Telegram bot probe failed: ";
                 formatProbeIssueLabel probe LabelRuntime];
     issueFix :=
       "Verify the bot token and Telegram API access from the gateway host; restart gateway after any changes."
  |}.

(** Lines 248-283.  The [continue] of line 259 ends the iteration with the
    accumulator as it is after the push. *)
Definition checkProbe (accountId : string)
  (account : TelegramAccountStatus) (issues : list ChannelStatusIssue)
  : list ChannelStatusIssue :=
  match readTelegramProbeSummary (probe account) with
  | Some probe =>
      if optionIsFalse (probeOk probe) then
        let isAuthFailure :=
          isAuthErrorSummary (orUndefined (probeError probe)) (probeStatus probe) in
        if isAuthFailure then push issues (probeAuthIssue accountId probe)
        else
          let isNetworkFailure :=
            isNetworkErrorSummary (orUndefined (probeError probe)) (probeStatus probe) in
          if isNetworkFailure then push issues (probeNetworkIssue accountId probe)
          else push issues (probeGenericIssue accountId probe)
      else issues
  | None => issues
  end.

(** One iteration of the loop of lines 172-284; each [continue] returns the
    accumulator. *)
Definition accountStep (issues : list ChannelStatusIssue) (entry : JsValue)
  : list ChannelStatusIssue :=
  match readTelegramAccountStatus entry with
  | None => issues
  | Some account =>
      let accountId := resolveEnabledConfiguredAccountId account in
      match accountId with
      | None => issues
      | Some accountId =>
          if negb (stringTruthy accountId) then issues
          else
            let issues := checkAllowUnmentionedGroups accountId account issues in
            let audit := readTelegramGroupMembershipAuditSummary (audit account) in
            let issues := checkWildcardUnmentionedGroups accountId audit issues in
            let issues := checkUnresolvedGroups accountId audit issues in
            let issues := checkGroups accountId audit issues in
            let issues := checkRuntimeConnection accountId account issues in
            checkProbe accountId account issues
      end
  end.

Definition collectTelegramStatusIssues (accounts : list JsValue)
  : list ChannelStatusIssue :=
  let issues := [] in
  fold_left accountStep accounts issues.

(** ** Notions used to state the properties *)

(** [phrase] occurs in [text]. *)
Definition containsPhrase (text phrase : string) : Prop :=
  exists before after, text = before ++ phrase ++ after.

(** The status argument is a number equal to the integer [z]. *)
Definition statusIs (status : Nullish JsNumber) (z : Z) : Prop :=
  exists q, status = Value (NFinite q) /\ (q == inject_Z z)%Q.

(** The error text, lower-cased, contains one of the auth phrases. *)
Definition textHasAuthPhrase (errorText : option string) : Prop :=
  exists text,
    errorText = Some text /\
    (containsPhrase (toLowerCase text) "unauthorized" \/
     containsPhrase (toLowerCase text) "invalid token" \/
     containsPhrase (toLowerCase text) "not authorized" \/
     containsPhrase (toLowerCase text) "bad request").

(** [audit.groups ?? []] *)
Definition groupsOrEmpty (audit : TelegramGroupMembershipAuditSummary)
  : list TelegramGroupAuditEntry :=
  match groups audit with
  | Some gs => gs
  | None => []
  end.

(** A group entry whose [ok] is not exactly [true]. *)
Definition groupFailing (group : TelegramGroupAuditEntry) : bool :=
  negb (optionIsTrue (groupOk group)).

(** The issues of the group loop, from the raw [groups] array of the
    audit. *)
Definition groupIssuesOfArray (accountId : string) (items : list JsValue)
  : list ChannelStatusIssue :=
  map (groupIssue accountId)
      (filter groupFailing (mapFilterBoolean readGroupEntry items)).

(** What the checks of lines 182-246 add for an account that passed the
    gate, each block run on an empty accumulator. *)
Definition issuesBeforeProbe (accountId : string) (account : TelegramAccountStatus)
  : list ChannelStatusIssue :=
  let audit := readTelegramGroupMembershipAuditSummary (audit account) in
  checkAllowUnmentionedGroups accountId account [] ++
  checkWildcardUnmentionedGroups accountId audit [] ++
  checkUnresolvedGroups accountId audit [] ++
  checkGroups accountId audit [] ++
  checkRuntimeConnection accountId account [].

(** The gate of lines 173-180: the account and the identifier under which
    the checks of an entry run, if they run. *)
Definition gate (entry : JsValue) : option (TelegramAccountStatus * string) :=
  match readTelegramAccountStatus entry with
  | None => None
  | Some account =>
      match resolveEnabledConfiguredAccountId account with
      | Some accountId =>
          if stringTruthy accountId then Some (account, accountId) else None
      | None => None
      end
  end.

(** An issue carries the channel name and the identifier [accountId]. *)
Definition stamped (accountId : string) (issue : ChannelStatusIssue) : Prop :=
  channel issue = "telegram" /\ issueAccountId issue = accountId.

(** Two numbers are the same number. *)
Definition sameNumber (n m : JsNumber) : Prop :=
  match n, m with
  | NFinite p, NFinite q => (p == q)%Q
  | NNaN, NNaN => True
  | NInfinity a, NInfinity b => a = b
  | _, _ => False
  end.

(** Structural identity of two values: the same primitive, arrays with
    structurally identical elements in the same order, objects whose
    properties read the same under every key, whatever the order in which
    the properties are listed. *)
Inductive deepEqual : JsValue -> JsValue -> Prop :=
| DeepUndefined : deepEqual JUndefined JUndefined
| DeepNull : deepEqual JNull JNull
| DeepBool (b : bool) : deepEqual (JBool b) (JBool b)
| DeepNumber (n m : JsNumber) : sameNumber n m -> deepEqual (JNumber n) (JNumber m)
| DeepString (s : string) : deepEqual (JString s) (JString s)
| DeepArray (xs ys : list JsValue) :
    Forall2 deepEqual xs ys -> deepEqual (JArray xs) (JArray ys)
| DeepObject (ps qs : list (string * JsValue)) :
    (forall key, deepEqual (lookupProp key ps) (lookupProp key qs)) ->
    deepEqual (JObject ps) (JObject qs).

(** Structural identity of two account views, field by field. *)
Definition sameAccount (a b : TelegramAccountStatus) : Prop :=
  deepEqual (accountId a) (accountId b) /\
  deepEqual (enabled a) (enabled b) /\
  deepEqual (configured a) (configured b) /\
  deepEqual (allowUnmentionedGroups a) (allowUnmentionedGroups b) /\
  deepEqual (audit a) (audit b) /\
  deepEqual (probe a) (probe b) /\
  deepEqual (running a) (running b) /\
  deepEqual (connected a) (connected b) /\
  deepEqual (lastError a) (lastError b).

(** A helper of shared.js reads nothing but the structure of its argument. *)
Definition structural {B : Type} (f : JsValue -> B) : Prop :=
  forall v w, deepEqual v w -> f v = f w.

Definition structuralOnAccounts {B : Type} (f : TelegramAccountStatus -> B) : Prop :=
  forall a b, sameAccount a b -> f a = f b.

(** The length of the raw [groups] array of the audit of an entry, zero
    when there is no such array. *)
Definition rawGroupCount (entry : JsValue) : nat :=
  match getProp (getProp entry "audit") "groups" with
  | JArray items => List.length items
  | _ => 0
  end.

(** An issue has a message and a fix to show. *)
Definition hasTexts (issue : ChannelStatusIssue) : Prop :=
  message issue <> "" /\ issueFix issue <> "".

(** ** Properties of the string primitives *)

Lemma startsWith_prefix (p s : string) :
  startsWith s p = true <-> exists rest, s = p ++ rest.
Proof.
  revert s; induction p as [|cp p IH]; intros s; simpl.
  - split; [intros _; now exists s | reflexivity].
  - destruct s as [|cs s]; simpl.
    + split; [discriminate | intros [rest H]; discriminate].
    + rewrite andb_true_iff, IH, Ascii.eqb_eq. split.
      * intros [-> [rest ->]]. now exists rest.
      * intros [rest H]. injection H as -> ->. split; [reflexivity | now exists rest].
Qed.

Lemma includes_containsPhrase (s p : string) :
  includes s p = true <-> containsPhrase s p.
Proof.
  unfold containsPhrase. split.
  - induction s as [|c s IH]; simpl; rewrite orb_true_iff.
    + intros [H | H]; [| discriminate].
      apply startsWith_prefix in H as [rest ->]. now exists "", rest.
    + intros [H | H].
      * apply startsWith_prefix in H as [rest ->]. now exists "", rest.
      * destruct (IH H) as (before & after & ->). now exists (String c before), after.
  - intros (before & after & ->). induction before as [|c before IH]; simpl.
    + assert (H : startsWith (p ++ after) p = true)
        by (apply startsWith_prefix; now exists after).
      destruct (p ++ after); simpl in *; rewrite H; reflexivity.
    + rewrite IH. apply orb_true_r.
Qed.

Lemma toLowerCase_truthy (s : string) :
  stringTruthy (toLowerCase s) = stringTruthy s.
Proof. destruct s; reflexivity. Qed.

Lemma statusStrictEq_statusIs (status : Nullish JsNumber) (z : Z) :
  statusStrictEq status z = true <-> statusIs status z.
Proof.
  unfold statusIs. destruct status as [| |[q| |neg]]; simpl.
  1, 2, 4, 5: split; [discriminate | intros (q' & H & _); discriminate].
  rewrite Qeq_bool_iff. split.
  - intros H. now exists q.
  - intros (q' & H & Hq). now injection H as ->.
Qed.

Lemma optionIncludes_containsPhrase (errorText : option string) (phrase : string) :
  optionIncludes (option_map toLowerCase errorText) phrase = true <->
  exists text, errorText = Some text /\ containsPhrase (toLowerCase text) phrase.
Proof.
  destruct errorText as [text|]; simpl.
  - rewrite includes_containsPhrase. split.
    + intros H. now exists text.
    + intros (t & H & Hc). now injection H as ->.
  - split; [discriminate | intros (t & H & _); discriminate].
Qed.

Lemma isAuthErrorSummary_true_iff (errorText : option string) (status : Nullish JsNumber) :
  isAuthErrorSummary errorText status = true <->
  statusIs status 401 \/ statusIs status 403 \/ textHasAuthPhrase errorText.
Proof.
  unfold isAuthErrorSummary, textHasAuthPhrase.
  rewrite !orb_true_iff, !statusStrictEq_statusIs, !optionIncludes_containsPhrase.
  split.
  - intros [[[[[H | H] | H] | H] | H] | H]; auto;
      destruct H as (text & Ht & Hc); right; right; exists text; auto.
  - intros [H | [H | (text & Ht & [Hc | [Hc | [Hc | Hc]]])]]; eauto 10.
Qed.

(** ** The classifiers *)

(** C4: the auth classifier returns true whenever the status is exactly 401
    or exactly 403, whatever the error text (absent included); when the
    status is neither, it returns true exactly when the lower-cased error
    text contains one of "unauthorized", "invalid token", "not authorized",
    "bad request". *)
Theorem isAuthErrorSummary_classifies :
  forall (errorText : option string) (status : Nullish JsNumber),
    ((statusIs status 401 \/ statusIs status 403) ->
     isAuthErrorSummary errorText status = true) /\
    (~ statusIs status 401 -> ~ statusIs status 403 ->
     (isAuthErrorSummary errorText status = true <-> textHasAuthPhrase errorText)).
Proof.
  intros errorText status. split.
  - intros H. apply isAuthErrorSummary_true_iff. tauto.
  - intros H401 H403. rewrite isAuthErrorSummary_true_iff. tauto.
Qed.

(** C5: the network classifier returns false whenever the status argument
    is present (neither null nor undefined), for every number, zero
    included, and every error text, absent included. *)
Theorem isNetworkErrorSummary_false_with_status :
  forall (errorText : option string) (n : JsNumber),
    isNetworkErrorSummary errorText (Value n) = false.
Proof. intros errorText n. reflexivity. Qed.

(** C6: when the status argument and the error text are both absent, the
    network classifier returns true; the status may be absent as undefined
    or as null. *)
Theorem isNetworkErrorSummary_true_without_signals :
  isNetworkErrorSummary None Undefined = true /\
  isNetworkErrorSummary None Null = true.
Proof. split; reflexivity. Qed.

(** C9: with the status argument absent and the error text the empty
    string, the network classifier returns true: the empty text takes the
    branch of the absent text and is not matched against the connectivity
    substrings; for every status the empty text and the absent text give
    the same answer. *)
Theorem isNetworkErrorSummary_empty_text_as_absent :
  isNetworkErrorSummary (Some "") Undefined = true /\
  isNetworkErrorSummary (Some "") Null = true /\
  (forall status : Nullish JsNumber,
     isNetworkErrorSummary (Some "") status = isNetworkErrorSummary None status).
Proof.
  split; [reflexivity | split; [reflexivity |]].
  intros status. destruct status; reflexivity.
Qed.

(** ** Every block appends to the accumulator *)

Local Open Scope list_scope.

Lemma checkAllowUnmentionedGroups_app accountId account issues :
  checkAllowUnmentionedGroups accountId account issues =
  issues ++ checkAllowUnmentionedGroups accountId account [].
Proof.
  unfold checkAllowUnmentionedGroups, push.
  destruct (strictTrue _); [reflexivity | now rewrite app_nil_r].
Qed.

Lemma checkWildcardUnmentionedGroups_app accountId audit issues :
  checkWildcardUnmentionedGroups accountId audit issues =
  issues ++ checkWildcardUnmentionedGroups accountId audit [].
Proof.
  unfold checkWildcardUnmentionedGroups, push.
  destruct (optionIsTrue _); [reflexivity | now rewrite app_nil_r].
Qed.

Lemma checkUnresolvedGroups_app accountId audit issues :
  checkUnresolvedGroups accountId audit issues =
  issues ++ checkUnresolvedGroups accountId audit [].
Proof.
  unfold checkUnresolvedGroups, push.
  destruct (unresolvedGroups audit) as [n|]; [| now rewrite app_nil_r].
  destruct (numberTruthy n && numberGtZero n); [reflexivity | now rewrite app_nil_r].
Qed.

Lemma groupLoop_issues accountId gs issues :
  fold_left (groupStep accountId) gs issues =
  issues ++ map (groupIssue accountId) (filter groupFailing gs).
Proof.
  revert issues. induction gs as [|g gs IH]; intros issues; simpl.
  - now rewrite app_nil_r.
  - rewrite IH. unfold groupStep, groupFailing, push.
    destruct (optionIsTrue (groupOk g)); simpl; [reflexivity |].
    now rewrite <- app_assoc.
Qed.

Lemma checkGroups_issues accountId audit issues :
  checkGroups accountId audit issues =
  issues ++ map (groupIssue accountId) (filter groupFailing (groupsOrEmpty audit)).
Proof. unfold checkGroups, groupsOrEmpty. apply groupLoop_issues. Qed.

Lemma checkGroups_app accountId audit issues :
  checkGroups accountId audit issues = issues ++ checkGroups accountId audit [].
Proof. now rewrite (checkGroups_issues _ _ issues), (checkGroups_issues _ _ []). Qed.

Lemma checkRuntimeConnection_app accountId account issues :
  checkRuntimeConnection accountId account issues =
  issues ++ checkRuntimeConnection accountId account [].
Proof.
  unfold checkRuntimeConnection, push.
  destruct (strictTrue (running account) && negb (strictTrue (connected account)));
    [reflexivity | now rewrite app_nil_r].
Qed.

Lemma checkProbe_app accountId account issues :
  checkProbe accountId account issues = issues ++ checkProbe accountId account [].
Proof.
  unfold checkProbe, push.
  destruct (readTelegramProbeSummary (probe account)) as [p|]; [| now rewrite app_nil_r].
  destruct (optionIsFalse (probeOk p)); [| now rewrite app_nil_r].
  destruct (isAuthErrorSummary _ _); [reflexivity |].
  destruct (isNetworkErrorSummary _ _); reflexivity.
Qed.

(** The loop body, by the outcome of the gate. *)
Lemma accountStep_gate issues entry :
  accountStep issues entry =
  match gate entry with
  | Some (account, accountId) =>
      issues ++ issuesBeforeProbe accountId account ++ checkProbe accountId account []
  | None => issues
  end.
Proof.
  unfold accountStep, gate.
  destruct (readTelegramAccountStatus entry) as [account|]; [| reflexivity].
  destruct (resolveEnabledConfiguredAccountId account) as [accountId|]; [| reflexivity].
  destruct (stringTruthy accountId); simpl; [| reflexivity].
  unfold issuesBeforeProbe.
  rewrite checkProbe_app, checkRuntimeConnection_app, checkGroups_app,
    checkUnresolvedGroups_app, checkWildcardUnmentionedGroups_app,
    checkAllowUnmentionedGroups_app.
  now rewrite <- !app_assoc.
Qed.

Lemma accountStep_app issues entry :
  accountStep issues entry = issues ++ accountStep [] entry.
Proof.
  rewrite (accountStep_gate issues), (accountStep_gate []).
  destruct (gate entry) as [[account accountId]|]; [reflexivity | now rewrite app_nil_r].
Qed.

Lemma accountLoop_app accounts issues :
  fold_left accountStep accounts issues =
  issues ++ flat_map (accountStep []) accounts.
Proof.
  revert issues. induction accounts as [|entry accounts IH]; intros issues; simpl.
  - now rewrite app_nil_r.
  - rewrite IH, (accountStep_app issues). now rewrite <- app_assoc.
Qed.

Lemma collectTelegramStatusIssues_flat_map accounts :
  collectTelegramStatusIssues accounts = flat_map (accountStep []) accounts.
Proof. unfold collectTelegramStatusIssues. now rewrite accountLoop_app. Qed.

(** ** The blocks stamp their issues *)

Lemma gate_Some entry account accountId :
  gate entry = Some (account, accountId) <->
  readTelegramAccountStatus entry = Some account /\
  resolveEnabledConfiguredAccountId account = Some accountId /\
  stringTruthy accountId = true.
Proof.
  unfold gate.
  destruct (readTelegramAccountStatus entry) as [a|].
  - destruct (resolveEnabledConfiguredAccountId a) as [id|] eqn:Hid.
    + destruct (stringTruthy id) eqn:Ht; split.
      * intros H. injection H as <- <-. auto.
      * intros (H1 & H2 & _). injection H1 as <-. rewrite Hid in H2.
        now injection H2 as <-.
      * discriminate.
      * intros (H1 & H2 & H3). injection H1 as <-. rewrite Hid in H2.
        injection H2 as <-. congruence.
    + split; [discriminate |].
      intros (H1 & H2 & _). injection H1 as <-. congruence.
  - split; [discriminate | intros (H & _); discriminate].
Qed.

Lemma stringTruthy_nonempty (s : string) : stringTruthy s = true <-> s <> "".
Proof. destruct s; simpl; split; congruence. Qed.

Lemma issuesBeforeProbe_stamped accountId account :
  Forall (stamped accountId) (issuesBeforeProbe accountId account).
Proof.
  unfold issuesBeforeProbe. rewrite !Forall_app. repeat split.
  - unfold checkAllowUnmentionedGroups, push.
    destruct (strictTrue _); repeat constructor.
  - unfold checkWildcardUnmentionedGroups, push.
    destruct (optionIsTrue _); repeat constructor.
  - unfold checkUnresolvedGroups, push.
    destruct (unresolvedGroups _) as [n|]; [| constructor].
    destruct (numberTruthy n && numberGtZero n); repeat constructor.
  - rewrite checkGroups_issues. simpl. apply Forall_map, Forall_forall.
    intros g _. split; reflexivity.
  - unfold checkRuntimeConnection, push.
    destruct (strictTrue (running account) && negb (strictTrue (connected account)));
      repeat constructor.
Qed.

Lemma checkProbe_cases accountId account :
  checkProbe accountId account [] =
  match readTelegramProbeSummary (probe account) with
  | Some p =>
      if optionIsFalse (probeOk p) then
        [if isAuthErrorSummary (orUndefined (probeError p)) (probeStatus p)
         then probeAuthIssue accountId p
         else if isNetworkErrorSummary (orUndefined (probeError p)) (probeStatus p)
              then probeNetworkIssue accountId p
              else probeGenericIssue accountId p]
      else []
  | None => []
  end.
Proof.
  unfold checkProbe, push.
  destruct (readTelegramProbeSummary (probe account)) as [p|]; [| reflexivity].
  destruct (optionIsFalse (probeOk p)); [| reflexivity].
  destruct (isAuthErrorSummary _ _); [reflexivity |].
  destruct (isNetworkErrorSummary _ _); reflexivity.
Qed.

Lemma checkProbe_stamped accountId account :
  Forall (stamped accountId) (checkProbe accountId account []).
Proof.
  rewrite checkProbe_cases.
  destruct (readTelegramProbeSummary (probe account)) as [p|]; [| constructor].
  destruct (optionIsFalse (probeOk p)); [| constructor].
  constructor; [| constructor].
  destruct (isAuthErrorSummary _ _); [split; reflexivity |].
  destruct (isNetworkErrorSummary _ _); split; reflexivity.
Qed.

Lemma readTelegramProbeSummary_Some value p :
  readTelegramProbeSummary value = Some p ->
  isRecord value = true /\ probeOk p = booleanOrUndefined (getProp value "ok").
Proof.
  unfold readTelegramProbeSummary. destruct (isRecord value); simpl; [| discriminate].
  intros H. injection H as <-. split; reflexivity.
Qed.

Lemma booleanOrUndefined_false (v : JsValue) :
  booleanOrUndefined v = Some false <-> v = JBool false.
Proof.
  destruct v as [| |[|]| | | |]; simpl; split; congruence.
Qed.

(** ** The synthesizer *)

(** C2: for every account the probe-failure check (lines 248-283) adds at
    most one issue to the accumulator, whatever the earlier checks have
    put there.  It adds none unless the probe is record-shaped and its ok
    field is exactly false; otherwise it adds exactly one issue, chosen by
    trying the auth classifier first, then the network classifier, then
    the generic fallback.  For an account that passed the gate the issues
    of the loop body are those of the earlier checks followed by this
    one. *)
Theorem checkProbe_at_most_one_issue :
  forall (accountId : string) (account : TelegramAccountStatus)
         (issues : list ChannelStatusIssue),
    checkProbe accountId account issues =
      issues ++ checkProbe accountId account [] /\
    List.length (checkProbe accountId account []) <= 1 /\
    (checkProbe accountId account [] = [] <->
     ~ (isRecord (probe account) = true /\
        getProp (probe account) "ok" = JBool false)) /\
    (forall p : TelegramProbeSummary,
       readTelegramProbeSummary (probe account) = Some p ->
       probeOk p = Some false ->
       (isAuthErrorSummary (orUndefined (probeError p)) (probeStatus p) = true ->
        checkProbe accountId account [] = [probeAuthIssue accountId p]) /\
       (isAuthErrorSummary (orUndefined (probeError p)) (probeStatus p) = false ->
        isNetworkErrorSummary (orUndefined (probeError p)) (probeStatus p) = true ->
        checkProbe accountId account [] = [probeNetworkIssue accountId p]) /\
       (isAuthErrorSummary (orUndefined (probeError p)) (probeStatus p) = false ->
        isNetworkErrorSummary (orUndefined (probeError p)) (probeStatus p) = false ->
        checkProbe accountId account [] = [probeGenericIssue accountId p])) /\
    (forall entry : JsValue,
       gate entry = Some (account, accountId) ->
       accountStep issues entry =
         issues ++ issuesBeforeProbe accountId account ++
         checkProbe accountId account []).
Proof.
  intros accountId account issues.
  split; [apply checkProbe_app |].
  rewrite checkProbe_cases.
  split; [| split; [| split]].
  - destruct (readTelegramProbeSummary (probe account)) as [p|]; [| simpl; lia].
    destruct (optionIsFalse (probeOk p)); simpl; lia.
  - destruct (readTelegramProbeSummary (probe account)) as [p|] eqn:Hread.
    + destruct (readTelegramProbeSummary_Some _ _ Hread) as [Hrec Hok].
      destruct (optionIsFalse (probeOk p)) eqn:Hfalse.
      * split; [discriminate |]. intros H. exfalso. apply H. split; [exact Hrec |].
        apply booleanOrUndefined_false. rewrite <- Hok.
        destruct (probeOk p) as [[|]|]; simpl in Hfalse; congruence.
      * split; [| reflexivity]. intros _ [_ H].
        apply booleanOrUndefined_false in H. rewrite <- Hok in H.
        rewrite H in Hfalse. discriminate.
    + split; [| reflexivity]. intros _ [Hrec _].
      unfold readTelegramProbeSummary in Hread. rewrite Hrec in Hread. discriminate.
  - intros p Hread Hok. rewrite Hread, Hok. simpl.
    repeat split.
    + intros ->. reflexivity.
    + intros -> ->. reflexivity.
    + intros -> ->. reflexivity.
  - intros entry Hgate. rewrite accountStep_gate, Hgate. now rewrite checkProbe_cases.
Qed.

Lemma mapFilterBoolean_app {A B : Type} (f : A -> option B) (xs ys : list A) :
  mapFilterBoolean f (xs ++ ys) = mapFilterBoolean f xs ++ mapFilterBoolean f ys.
Proof.
  induction xs as [|x xs IH]; simpl; [reflexivity |].
  destruct (f x); simpl; now rewrite IH.
Qed.

(** C3: the loop over the audit groups (lines 213-230) adds exactly one
    runtime issue for every entry whose ok is not exactly true, in the
    order of the entries, and none for an entry whose ok is exactly true.
    The entries are those of the input groups array that survive the audit
    reader: the issues of an array are the issues of its elements one after
    the other, an element giving one issue when it survives the reader with
    ok not exactly true and none otherwise.  For an account that passed the
    gate these issues stand together in the issues of the loop body. *)
Theorem checkGroups_one_issue_per_failing_entry :
  forall (accountId : string) (summary : TelegramGroupMembershipAuditSummary)
         (issues : list ChannelStatusIssue),
    checkGroups accountId summary issues =
      issues ++ map (groupIssue accountId)
                    (filter groupFailing (groupsOrEmpty summary)) /\
    (forall g : TelegramGroupAuditEntry,
       kind (groupIssue accountId g) = KindRuntime /\
       (groupFailing g = false <-> groupOk g = Some true)) /\
    (forall (value : JsValue) (items : list JsValue),
       isRecord value = true ->
       getProp value "groups" = JArray items ->
       checkGroups accountId (readTelegramGroupMembershipAuditSummary value) issues =
         issues ++ groupIssuesOfArray accountId items) /\
    (forall xs ys : list JsValue,
       groupIssuesOfArray accountId (xs ++ ys) =
         groupIssuesOfArray accountId xs ++ groupIssuesOfArray accountId ys) /\
    (forall x : JsValue,
       groupIssuesOfArray accountId [x] =
         match readGroupEntry x with
         | Some g => if optionIsTrue (groupOk g) then [] else [groupIssue accountId g]
         | None => []
         end) /\
    (forall (entry : JsValue) (account : TelegramAccountStatus),
       gate entry = Some (account, accountId) ->
       summary = readTelegramGroupMembershipAuditSummary (audit account) ->
       exists before after,
         accountStep issues entry =
           issues ++ before ++
           map (groupIssue accountId) (filter groupFailing (groupsOrEmpty summary)) ++
           after).
Proof.
  intros accountId summary issues.
  split; [apply checkGroups_issues |].
  split; [| split; [| split; [| split]]].
  - intros g. split; [reflexivity |].
    unfold groupFailing. destruct (groupOk g) as [[|]|]; simpl; split; congruence.
  - intros value items Hrec Hgroups. rewrite checkGroups_issues.
    unfold readTelegramGroupMembershipAuditSummary, groupsOrEmpty, groupIssuesOfArray.
    rewrite Hrec, Hgroups. reflexivity.
  - intros xs ys. unfold groupIssuesOfArray.
    now rewrite mapFilterBoolean_app, filter_app, map_app.
  - intros x. unfold groupIssuesOfArray, groupFailing. simpl.
    destruct (readGroupEntry x) as [g|]; simpl; [| reflexivity].
    destruct (optionIsTrue (groupOk g)); reflexivity.
  - intros entry account Hgate ->.
    rewrite accountStep_gate, Hgate. unfold issuesBeforeProbe.
    rewrite (checkGroups_issues accountId _ []). simpl.
    set (summary := readTelegramGroupMembershipAuditSummary (audit account)).
    exists (checkAllowUnmentionedGroups accountId account [] ++
            checkWildcardUnmentionedGroups accountId summary [] ++
            checkUnresolvedGroups accountId summary []),
           (checkRuntimeConnection accountId account [] ++
            checkProbe accountId account []).
    now rewrite <- !app_assoc.
Qed.

(** C10: every issue of the output has channel "telegram", and its account
    identifier is the identifier resolved for the snapshot whose checks
    produced it, which is not the empty string. *)
Theorem collectTelegramStatusIssues_channel_and_account :
  forall (accounts : list JsValue) (issue : ChannelStatusIssue),
    In issue (collectTelegramStatusIssues accounts) ->
    channel issue = "telegram" /\
    exists (entry : JsValue) (account : TelegramAccountStatus),
      In entry accounts /\
      In issue (accountStep [] entry) /\
      readTelegramAccountStatus entry = Some account /\
      resolveEnabledConfiguredAccountId account = Some (issueAccountId issue) /\
      issueAccountId issue <> "".
Proof.
  intros accounts issue Hin.
  rewrite collectTelegramStatusIssues_flat_map in Hin.
  apply in_flat_map in Hin as (entry & Hentry & Hissue).
  pose proof Hissue as Hstep.
  rewrite accountStep_gate in Hissue.
  destruct (gate entry) as [[account accountId]|] eqn:Hgate; [| contradiction].
  apply gate_Some in Hgate as (Hread & Hid & Htruthy).
  assert (Hstamp : stamped accountId issue).
  { simpl in Hissue. apply in_app_or in Hissue as [H | H].
    - exact (proj1 (Forall_forall _ _) (issuesBeforeProbe_stamped accountId account) _ H).
    - exact (proj1 (Forall_forall _ _) (checkProbe_stamped accountId account) _ H). }
  destruct Hstamp as [Hchannel Hacc]. split; [exact Hchannel |].
  exists entry, account. rewrite Hacc.
  repeat split; try assumption. now apply stringTruthy_nonempty.
Qed.

(** ** Structural identity is respected by every primitive the code uses *)

Lemma deepEqual_refl : forall v : JsValue, deepEqual v v.
Proof.
  fix IH 1. intros [| |b|n|s|items|props]; try constructor.
  - destruct n as [q| |neg]; simpl; [apply Qeq_refl | exact I | reflexivity].
  - induction items as [|x items IHitems]; constructor; [apply IH | exact IHitems].
  - intros key. induction props as [|[k v] props IHprops]; simpl.
    + constructor.
    + destruct (String.eqb k key); [apply IH | exact IHprops].
Qed.

Lemma deepEqual_getProp (v w : JsValue) (key : string) :
  deepEqual v w -> deepEqual (getProp v key) (getProp w key).
Proof. intros H. destruct H; simpl; try constructor. apply H. Qed.

Lemma deepEqual_strictTrue (v w : JsValue) :
  deepEqual v w -> strictTrue v = strictTrue w.
Proof. intros H. destruct H; reflexivity. Qed.

Lemma deepEqual_booleanOrUndefined (v w : JsValue) :
  deepEqual v w -> booleanOrUndefined v = booleanOrUndefined w.
Proof. intros H. destruct H; reflexivity. Qed.

Lemma deepEqual_isFiniteNumber (v w : JsValue) :
  deepEqual v w ->
  match isFiniteNumber v, isFiniteNumber w with
  | Some n, Some m => sameNumber n m
  | None, None => True
  | _, _ => False
  end.
Proof.
  intros H. destruct H as [| | |n m Hnm| | |]; simpl; try exact I.
  destruct n as [p| |a], m as [q| |b]; simpl in *; auto.
Qed.

Lemma sameNumber_numberToString (n m : JsNumber) :
  sameNumber n m -> numberToString n = numberToString m.
Proof.
  destruct n as [p| |a], m as [q| |b]; simpl; try contradiction; try reflexivity.
  - intros H. now rewrite (Qred_complete _ _ H).
  - now intros ->.
Qed.

Lemma sameNumber_numberTruthy (n m : JsNumber) :
  sameNumber n m -> numberTruthy n = numberTruthy m.
Proof.
  destruct n as [p| |a], m as [q| |b]; simpl; try contradiction; try reflexivity.
  unfold Qeq. intros H. f_equal.
  destruct (Z.eqb_spec (Qnum p) 0) as [Hp|Hp], (Z.eqb_spec (Qnum q) 0) as [Hq|Hq];
    try reflexivity; exfalso; nia.
Qed.

Lemma sameNumber_numberGtZero (n m : JsNumber) :
  sameNumber n m -> numberGtZero n = numberGtZero m.
Proof.
  destruct n as [p| |a], m as [q| |b]; simpl; try contradiction; try reflexivity.
  - unfold Qeq. intros H.
    destruct (Z.ltb_spec 0 (Qnum p)) as [Hp|Hp], (Z.ltb_spec 0 (Qnum q)) as [Hq|Hq];
      try reflexivity; exfalso; nia.
  - now intros ->.
Qed.

Lemma sameNumber_numberStrictEq (n m : JsNumber) (z : Z) :
  sameNumber n m -> numberStrictEq n z = numberStrictEq m z.
Proof.
  destruct n as [p| |a], m as [q| |b]; simpl; try contradiction; try reflexivity.
  intros H.
  destruct (Qeq_bool p (inject_Z z)) eqn:Hp, (Qeq_bool q (inject_Z z)) eqn:Hq;
    try reflexivity.
  - apply Qeq_bool_iff in Hp. rewrite H in Hp. apply Qeq_bool_iff in Hp. congruence.
  - apply Qeq_bool_iff in Hq. rewrite <- H in Hq. apply Qeq_bool_iff in Hq. congruence.
Qed.

Lemma sameNumber_isAuthErrorSummary (errorText : option string) (n m : JsNumber) :
  sameNumber n m ->
  isAuthErrorSummary errorText (Value n) = isAuthErrorSummary errorText (Value m).
Proof.
  intros H. unfold isAuthErrorSummary, statusStrictEq.
  now rewrite !(sameNumber_numberStrictEq n m _ H).
Qed.

Lemma sameNumber_formatProbeIssueLabel ok error (n m : JsNumber) label :
  sameNumber n m ->
  formatProbeIssueLabel (mkProbeSummary ok (Value n) error) label =
  formatProbeIssueLabel (mkProbeSummary ok (Value m) error) label.
Proof.
  intros H. unfold formatProbeIssueLabel. simpl.
  now rewrite (sameNumber_numberToString n m H).
Qed.

(** ** Determinism *)

Section Determinism.

(** The helpers of shared.js read nothing but the structure of their
    argument. *)
Hypothesis isRecord_structural : structural isRecord.
Hypothesis asString_structural : structural asString.
Hypothesis resolve_structural :
  structuralOnAccounts resolveEnabledConfiguredAccountId.

Lemma asString_getProp (v w : JsValue) (key : string) :
  deepEqual v w -> asString (getProp v key) = asString (getProp w key).
Proof. intros H. apply asString_structural. now apply deepEqual_getProp. Qed.

Lemma readGroupEntry_deepEqual (v w : JsValue) :
  deepEqual v w -> readGroupEntry v = readGroupEntry w.
Proof.
  intros H. unfold readGroupEntry.
  rewrite (isRecord_structural v w H), !(asString_getProp v w _ H).
  now rewrite (deepEqual_booleanOrUndefined _ _ (deepEqual_getProp v w "ok" H)).
Qed.

Lemma mapFilterBoolean_deepEqual (xs ys : list JsValue) :
  Forall2 deepEqual xs ys ->
  mapFilterBoolean readGroupEntry xs = mapFilterBoolean readGroupEntry ys.
Proof.
  induction 1 as [|x y xs ys Hxy _ IH]; simpl; [reflexivity |].
  rewrite (readGroupEntry_deepEqual x y Hxy), IH. reflexivity.
Qed.

Lemma auditGroups_deepEqual (v w : JsValue) :
  deepEqual v w ->
  groups (readTelegramGroupMembershipAuditSummary v) =
  groups (readTelegramGroupMembershipAuditSummary w).
Proof.
  intros H. unfold readTelegramGroupMembershipAuditSummary.
  rewrite (isRecord_structural v w H). destruct (isRecord w); simpl; [| reflexivity].
  pose proof (deepEqual_getProp v w "groups" H) as Hg.
  destruct Hg; try reflexivity.
  f_equal. now apply mapFilterBoolean_deepEqual.
Qed.

Lemma auditWildcard_deepEqual (v w : JsValue) :
  deepEqual v w ->
  hasWildcardUnmentionedGroups (readTelegramGroupMembershipAuditSummary v) =
  hasWildcardUnmentionedGroups (readTelegramGroupMembershipAuditSummary w).
Proof.
  intros H. unfold readTelegramGroupMembershipAuditSummary.
  rewrite (isRecord_structural v w H). destruct (isRecord w); simpl; [| reflexivity].
  apply deepEqual_booleanOrUndefined. now apply deepEqual_getProp.
Qed.

Lemma checkWildcardUnmentionedGroups_deepEqual accountId (v w : JsValue) issues :
  deepEqual v w ->
  checkWildcardUnmentionedGroups accountId
    (readTelegramGroupMembershipAuditSummary v) issues =
  checkWildcardUnmentionedGroups accountId
    (readTelegramGroupMembershipAuditSummary w) issues.
Proof.
  intros H. unfold checkWildcardUnmentionedGroups.
  now rewrite (auditWildcard_deepEqual v w H).
Qed.

Lemma checkUnresolvedGroups_deepEqual accountId (v w : JsValue) issues :
  deepEqual v w ->
  checkUnresolvedGroups accountId (readTelegramGroupMembershipAuditSummary v) issues =
  checkUnresolvedGroups accountId (readTelegramGroupMembershipAuditSummary w) issues.
Proof.
  intros H. unfold checkUnresolvedGroups, readTelegramGroupMembershipAuditSummary.
  rewrite (isRecord_structural v w H). destruct (isRecord w); simpl; [| reflexivity].
  pose proof (deepEqual_isFiniteNumber _ _ (deepEqual_getProp v w "unresolvedGroups" H))
    as Hn.
  destruct (isFiniteNumber (getProp v "unresolvedGroups")) as [n|],
           (isFiniteNumber (getProp w "unresolvedGroups")) as [m|];
    try contradiction; [| reflexivity].
  now rewrite (sameNumber_numberTruthy n m Hn), (sameNumber_numberGtZero n m Hn),
    (sameNumber_numberToString n m Hn).
Qed.

Lemma checkGroups_deepEqual accountId (v w : JsValue) issues :
  deepEqual v w ->
  checkGroups accountId (readTelegramGroupMembershipAuditSummary v) issues =
  checkGroups accountId (readTelegramGroupMembershipAuditSummary w) issues.
Proof.
  intros H. unfold checkGroups. now rewrite (auditGroups_deepEqual v w H).
Qed.

Lemma checkProbe_deepEqual accountId (a b : TelegramAccountStatus) issues :
  deepEqual (probe a) (probe b) ->
  checkProbe accountId a issues = checkProbe accountId b issues.
Proof.
  intros H. unfold checkProbe, readTelegramProbeSummary.
  rewrite (isRecord_structural _ _ H). destruct (isRecord (probe b)); simpl; [| reflexivity].
  rewrite (asString_getProp _ _ "error" H).
  rewrite (deepEqual_booleanOrUndefined _ _ (deepEqual_getProp _ _ "ok" H)).
  destruct (optionIsFalse _); [| reflexivity].
  pose proof (deepEqual_isFiniteNumber _ _ (deepEqual_getProp _ _ "status" H)) as Hn.
  destruct (isFiniteNumber (getProp (probe a) "status")) as [n|],
           (isFiniteNumber (getProp (probe b) "status")) as [m|];
    try contradiction; [| reflexivity].
  simpl. rewrite (sameNumber_isAuthErrorSummary _ n m Hn).
  unfold probeAuthIssue, probeNetworkIssue, probeGenericIssue.
  now rewrite !(sameNumber_formatProbeIssueLabel _ _ n m _ Hn).
Qed.

Lemma readTelegramAccountStatus_deepEqual (v w : JsValue) :
  deepEqual v w ->
  match readTelegramAccountStatus v, readTelegramAccountStatus w with
  | Some a, Some b => sameAccount a b
  | None, None => True
  | _, _ => False
  end.
Proof.
  intros H. unfold readTelegramAccountStatus.
  rewrite (isRecord_structural v w H). destruct (isRecord w); simpl; [| exact I].
  unfold sameAccount; simpl. repeat split; now apply deepEqual_getProp.
Qed.

Lemma accountStep_deepEqual issues (v w : JsValue) :
  deepEqual v w -> accountStep issues v = accountStep issues w.
Proof.
  intros H. pose proof (readTelegramAccountStatus_deepEqual v w H) as Hread.
  unfold accountStep.
  destruct (readTelegramAccountStatus v) as [a|], (readTelegramAccountStatus w) as [b|];
    try contradiction; [| reflexivity].
  rewrite (resolve_structural a b Hread).
  destruct Hread as (_ & _ & _ & Hallow & Haudit & Hprobe & Hrun & Hconn & Herr).
  destruct (resolveEnabledConfiguredAccountId b) as [accountId|]; [| reflexivity].
  destruct (stringTruthy accountId); simpl; [| reflexivity].
  rewrite (checkProbe_deepEqual accountId a b _ Hprobe). f_equal.
  unfold checkRuntimeConnection.
  rewrite (deepEqual_strictTrue _ _ Hrun), (deepEqual_strictTrue _ _ Hconn),
    (asString_structural _ _ Herr).
  rewrite (checkGroups_deepEqual accountId _ _ _ Haudit).
  rewrite (checkUnresolvedGroups_deepEqual accountId _ _ _ Haudit).
  rewrite (checkWildcardUnmentionedGroups_deepEqual accountId _ _ _ Haudit).
  unfold checkAllowUnmentionedGroups.
  now rewrite (deepEqual_strictTrue _ _ Hallow).
Qed.

(** C8: two invocations on structurally identical inputs (snapshots that
    are structurally identical, in the same order) return the same list of
    issues, in the same order. *)
Theorem collectTelegramStatusIssues_deterministic :
  forall accounts1 accounts2 : list JsValue,
    Forall2 deepEqual accounts1 accounts2 ->
    collectTelegramStatusIssues accounts1 = collectTelegramStatusIssues accounts2.
Proof.
  intros accounts1 accounts2 H. unfold collectTelegramStatusIssues.
  generalize (@nil ChannelStatusIssue) as issues.
  induction H as [|v w accounts1 accounts2 Hvw _ IH]; intros issues; simpl.
  - reflexivity.
  - rewrite (accountStep_deepEqual issues v w Hvw). apply IH.
Qed.

End Determinism.

(** ** Further properties of the synthesizer *)

(** X1: The issues of a concatenated input are the issues of its first part
    followed by those of its second part: every account is diagnosed on
    its own, in the order of the input. *)
Theorem collectTelegramStatusIssues_app :
  forall xs ys : list JsValue,
    collectTelegramStatusIssues (xs ++ ys) =
    collectTelegramStatusIssues xs ++ collectTelegramStatusIssues ys.
Proof.
  intros xs ys. rewrite !collectTelegramStatusIssues_flat_map. apply flat_map_app.
Qed.

Lemma flag_issue_kinds (b : bool) (issue : ChannelStatusIssue) :
  map kind ((if b then push [] issue else []) : list ChannelStatusIssue) =
  repeat (kind issue) (if b then 1 else 0).
Proof. destruct b; reflexivity. Qed.

Lemma map_kind_groupIssue accountId gs :
  map kind (map (groupIssue accountId) gs) = repeat KindRuntime (List.length gs).
Proof. induction gs as [|g gs IH]; simpl; [reflexivity | now rewrite IH]. Qed.

Lemma repeat_snoc {A : Type} (x : A) (k : nat) :
  repeat x (k + 1) = repeat x k ++ [x].
Proof. induction k as [|k IH]; simpl; [reflexivity | now rewrite IH]. Qed.

Lemma checkAllowUnmentionedGroups_kinds accountId account :
  exists x, x <= 1 /\
    map kind (checkAllowUnmentionedGroups accountId account []) = repeat KindConfig x.
Proof.
  unfold checkAllowUnmentionedGroups.
  destruct (strictTrue _); [exists 1 | exists 0]; split; (lia || reflexivity).
Qed.

Lemma checkWildcardUnmentionedGroups_kinds accountId summary :
  exists x, x <= 1 /\
    map kind (checkWildcardUnmentionedGroups accountId summary []) =
    repeat KindConfig x.
Proof.
  unfold checkWildcardUnmentionedGroups.
  destruct (optionIsTrue _); [exists 1 | exists 0]; split; (lia || reflexivity).
Qed.

Lemma checkUnresolvedGroups_kinds accountId summary :
  exists x, x <= 1 /\
    map kind (checkUnresolvedGroups accountId summary []) = repeat KindConfig x.
Proof.
  unfold checkUnresolvedGroups.
  destruct (unresolvedGroups summary) as [n|];
    [destruct (numberTruthy n && numberGtZero n) |];
    [exists 1 | exists 0 | exists 0]; split; (lia || reflexivity).
Qed.

Lemma checkRuntimeConnection_kinds accountId account :
  exists x, x <= 1 /\
    map kind (checkRuntimeConnection accountId account []) = repeat KindRuntime x.
Proof.
  unfold checkRuntimeConnection.
  destruct (strictTrue (running account) && negb (strictTrue (connected account)));
    [exists 1 | exists 0]; split; (lia || reflexivity).
Qed.

Lemma issuesBeforeProbe_kinds accountId account :
  exists a b,
    map kind (issuesBeforeProbe accountId account) =
      repeat KindConfig a ++ repeat KindRuntime b /\
    a <= 3 /\
    b <= S (List.length
              (groupsOrEmpty (readTelegramGroupMembershipAuditSummary (audit account)))).
Proof.
  unfold issuesBeforeProbe. cbv zeta.
  set (summary := readTelegramGroupMembershipAuditSummary (audit account)).
  pose proof (filter_length_le groupFailing (groupsOrEmpty summary)) as Hfilter.
  destruct (checkAllowUnmentionedGroups_kinds accountId account) as (x1 & H1 & E1).
  destruct (checkWildcardUnmentionedGroups_kinds accountId summary) as (x2 & H2 & E2).
  destruct (checkUnresolvedGroups_kinds accountId summary) as (x3 & H3 & E3).
  destruct (checkRuntimeConnection_kinds accountId account) as (x5 & H5 & E5).
  rewrite !map_app, E1, E2, E3, E5, checkGroups_issues. cbn [app].
  rewrite map_kind_groupIssue.
  exists (x1 + (x2 + x3)),
         (List.length (filter groupFailing (groupsOrEmpty summary)) + x5).
  split; [| lia].
  rewrite (repeat_app KindConfig x1 (x2 + x3)), (repeat_app KindConfig x2 x3),
    (repeat_app KindRuntime _ x5).
  now rewrite <- !app_assoc.
Qed.

(** X2: Within the issues of one account the config issues come first, then
    the runtime issues, and an auth issue can only be the last one: the
    kinds read config (at most three times), then runtime, then at most one
    auth. *)
Theorem accountStep_kinds_in_order :
  forall entry : JsValue,
    exists (a b : nat) (last : list IssueKind),
      map kind (accountStep [] entry) =
        repeat KindConfig a ++ repeat KindRuntime b ++ last /\
      a <= 3 /\
      (last = [] \/ last = [KindAuth]).
Proof.
  intros entry. rewrite accountStep_gate.
  destruct (gate entry) as [[account accountId]|].
  - destruct (issuesBeforeProbe_kinds accountId account) as (a & b & Hkinds & Ha & _).
    simpl. rewrite map_app, Hkinds, checkProbe_cases.
    destruct (readTelegramProbeSummary (probe account)) as [p|].
    + destruct (optionIsFalse (probeOk p)).
      * destruct (isAuthErrorSummary _ _).
        -- exists a, b, [KindAuth]. simpl. rewrite <- app_assoc. auto.
        -- exists a, (b + 1), []. rewrite repeat_snoc, app_nil_r, <- app_assoc.
           destruct (isNetworkErrorSummary _ _); simpl; auto.
      * exists a, b, []. simpl. rewrite !app_nil_r. auto.
    + exists a, b, []. simpl. rewrite !app_nil_r. auto.
  - exists 0, 0, []. simpl. split; [reflexivity | split; [lia | auto]].
Qed.

Lemma mapFilterBoolean_length {A B : Type} (f : A -> option B) (xs : list A) :
  List.length (mapFilterBoolean f xs) <= List.length xs.
Proof.
  induction xs as [|x xs IH]; simpl; [lia |]. destruct (f x); simpl; lia.
Qed.

Lemma groupsOrEmpty_length (value : JsValue) :
  List.length (groupsOrEmpty (readTelegramGroupMembershipAuditSummary value)) <=
  match getProp value "groups" with
  | JArray items => List.length items
  | _ => 0
  end.
Proof.
  unfold readTelegramGroupMembershipAuditSummary, groupsOrEmpty.
  destruct (isRecord value); simpl; [| lia].
  destruct (getProp value "groups"); simpl; try lia.
  apply mapFilterBoolean_length.
Qed.

Lemma checkProbe_length_le_1 accountId account :
  List.length (checkProbe accountId account []) <= 1.
Proof.
  rewrite checkProbe_cases.
  destruct (readTelegramProbeSummary (probe account)) as [p|]; [| simpl; lia].
  destruct (optionIsFalse (probeOk p)); simpl; lia.
Qed.

Lemma accountStep_length entry :
  List.length (accountStep [] entry) <= 5 + rawGroupCount entry.
Proof.
  rewrite accountStep_gate.
  destruct (gate entry) as [[account accountId]|] eqn:Hgate; [| simpl; lia].
  apply gate_Some in Hgate as (Hread & _ & _).
  unfold readTelegramAccountStatus in Hread.
  destruct (isRecord entry); simpl in Hread; [| discriminate].
  injection Hread as <-.
  destruct (issuesBeforeProbe_kinds accountId
              {| accountId := getProp entry "accountId";
                 enabled := getProp entry "enabled";
                 configured := getProp entry "configured";
                 allowUnmentionedGroups := getProp entry "allowUnmentionedGroups";
                 audit := getProp entry "audit";
                 probe := getProp entry "probe";
                 running := getProp entry "running";
                 connected := getProp entry "connected";
                 lastError := getProp entry "lastError" |})
    as (a & b & Hkinds & Ha & Hb).
  apply (f_equal (@List.length IssueKind)) in Hkinds.
  rewrite length_map, length_app, !repeat_length in Hkinds.
  simpl in Hb. pose proof (groupsOrEmpty_length (getProp entry "audit")) as Hgroups.
  pose proof (checkProbe_length_le_1 accountId
                {| accountId := getProp entry "accountId";
                   enabled := getProp entry "enabled";
                   configured := getProp entry "configured";
                   allowUnmentionedGroups := getProp entry "allowUnmentionedGroups";
                   audit := getProp entry "audit";
                   probe := getProp entry "probe";
                   running := getProp entry "running";
                   connected := getProp entry "connected";
                   lastError := getProp entry "lastError" |}) as Hprobe.
  simpl. rewrite length_app. unfold rawGroupCount. lia.
Qed.

(** X3: The output is linear in its input: an account adds at most five issues
    and one more for every element of the raw groups array of its audit. *)
Theorem collectTelegramStatusIssues_length_bound :
  forall accounts : list JsValue,
    List.length (collectTelegramStatusIssues accounts) <=
    list_sum (map (fun entry => 5 + rawGroupCount entry) accounts).
Proof.
  intros accounts. rewrite collectTelegramStatusIssues_flat_map.
  induction accounts as [|entry accounts IH]; [simpl; lia |].
  cbn [flat_map map list_sum fold_right]. rewrite length_app.
  pose proof (accountStep_length entry). unfold list_sum in IH. lia.
Qed.

Lemma readGroupEntry_chatId (x : JsValue) (g : TelegramGroupAuditEntry) :
  readGroupEntry x = Some g -> chatId g <> "".
Proof.
  unfold readGroupEntry. destruct (isRecord x); simpl; [| discriminate].
  destruct (asString (getProp x "chatId")) as [id|]; [| discriminate].
  destruct id as [|c id]; simpl; [discriminate |].
  intros H. injection H as <-. simpl. discriminate.
Qed.

Lemma mapFilterBoolean_Forall {A B : Type} (f : A -> option B) (P : B -> Prop)
  (xs : list A) :
  (forall x y, f x = Some y -> P y) -> Forall P (mapFilterBoolean f xs).
Proof.
  intros H. induction xs as [|x xs IH]; simpl; [constructor |].
  destruct (f x) as [y|] eqn:Hfx; [constructor; eauto | exact IH].
Qed.

(** X4: What the audit reader hands to the checks is well formed whatever the
    raw value is: every group entry has a non-empty chat id, there are
    groups only for a raw array and no more of them than the array has
    elements, and an unresolved-groups count is a finite number, the one of
    the raw value. *)
Theorem readTelegramGroupMembershipAuditSummary_well_formed :
  forall value : JsValue,
    Forall (fun g => chatId g <> "")
           (groupsOrEmpty (readTelegramGroupMembershipAuditSummary value)) /\
    (forall gs,
       groups (readTelegramGroupMembershipAuditSummary value) = Some gs ->
       exists items,
         getProp value "groups" = JArray items /\
         List.length gs <= List.length items) /\
    (forall n,
       unresolvedGroups (readTelegramGroupMembershipAuditSummary value) = Some n ->
       exists q,
         n = NFinite q /\ getProp value "unresolvedGroups" = JNumber (NFinite q)).
Proof.
  intros value. unfold readTelegramGroupMembershipAuditSummary, groupsOrEmpty.
  destruct (isRecord value); simpl.
  - split; [| split].
    + destruct (getProp value "groups"); try constructor.
      apply mapFilterBoolean_Forall. exact readGroupEntry_chatId.
    + intros gs H. destruct (getProp value "groups") as [| | | | |items|];
        try discriminate.
      injection H as <-. exists items. split; [reflexivity |].
      apply mapFilterBoolean_length.
    + intros n H. destruct (getProp value "unresolvedGroups") as [| | |[q| |neg]| | |];
        try discriminate.
      injection H as <-. now exists q.
  - split; [constructor | split; intros ? H; discriminate H].
Qed.

Lemma lowerUnit_idempotent (c : ascii) : lowerUnit (lowerUnit c) = lowerUnit c.
Proof. destruct c as [[] [] [] [] [] [] [] []]; reflexivity. Qed.

Lemma toLowerCase_idempotent (s : string) : toLowerCase (toLowerCase s) = toLowerCase s.
Proof.
  induction s as [|c s IH]; simpl; [reflexivity |].
  now rewrite lowerUnit_idempotent, IH.
Qed.

(** X5: The three classifiers do not see the case of ASCII letters: lower-casing
    the error text before it is classified changes no answer. *)
Theorem classifiers_ignore_letter_case :
  forall (text : string) (status : Nullish JsNumber),
    isAuthErrorSummary (Some (toLowerCase text)) status =
      isAuthErrorSummary (Some text) status /\
    isNetworkErrorSummary (Some (toLowerCase text)) status =
      isNetworkErrorSummary (Some text) status /\
    isDnsResolutionFailure (Some (toLowerCase text)) =
      isDnsResolutionFailure (Some text).
Proof.
  intros text status.
  unfold isAuthErrorSummary, isNetworkErrorSummary, isDnsResolutionFailure.
  simpl option_map. rewrite toLowerCase_idempotent. repeat split.
Qed.

Lemma string_app_assoc (a b c : string) : ((a ++ b) ++ c)%string = (a ++ b ++ c)%string.
Proof. induction a as [|x a IH]; simpl; [reflexivity | now rewrite IH]. Qed.

Lemma string_app_nil_r (a : string) : (a ++ "")%string = a.
Proof. induction a as [|x a IH]; simpl; [reflexivity | now rewrite IH]. Qed.

(** X6: The label of a probe issue shows what the probe reported: it is never
    empty, the auth label begins with "Token validation failed", and the
    label contains the error text and the HTTP status of the summary
    whenever the summary has them. *)
Theorem formatProbeIssueLabel_shows_probe :
  forall (summary : TelegramProbeSummary) (kindLabel : ProbeKindLabel),
    formatProbeIssueLabel summary kindLabel <> "" /\
    startsWith (formatProbeIssueLabel summary LabelAuth)
               "Token validation failed" = true /\
    (forall e, probeError summary = Value e ->
               containsPhrase (formatProbeIssueLabel summary kindLabel) e) /\
    (forall n, probeStatus summary = Value n ->
               containsPhrase (formatProbeIssueLabel summary kindLabel)
                              (" (HTTP " ++ numberToString n ++ ")")%string).
Proof.
  intros [ok status error] kindLabel. unfold formatProbeIssueLabel, template.
  cbn [probeStatus probeError]. repeat split.
  - destruct error as [| |[|c e]], kindLabel, status as [| |n]; simpl; discriminate.
  - destruct error as [| |[|c e]]; reflexivity.
  - intros e He. rewrite He. unfold containsPhrase.
    destruct e as [|c e], kindLabel.
    + eexists "", _. reflexivity.
    + eexists "", _. reflexivity.
    + eexists _, "". rewrite string_app_nil_r. cbn [String.concat].
      rewrite <- !string_app_assoc. reflexivity.
    + eexists "", _. cbn [String.concat]. reflexivity.
  - intros n Hn. rewrite Hn. unfold containsPhrase. cbn [String.concat].
    destruct error as [| |[|c e]], kindLabel.
    all: try (exists "Token validation failed"%string, ""%string;
              now rewrite !string_app_nil_r).
    all: try (exists "Probe failed"%string, ""%string;
              now rewrite !string_app_nil_r).
    + exists "Token validation failed"%string, (": " ++ String c e)%string.
      cbn [append]. now rewrite !string_app_assoc.
    + exists (String c e), ""%string. now rewrite !string_app_nil_r.
Qed.

Lemma formatProbeIssueLabel_nonempty summary kindLabel :
  formatProbeIssueLabel summary kindLabel <> "".
Proof.
  destruct summary as [ok status error]. unfold formatProbeIssueLabel, template.
  cbn [probeStatus probeError].
  destruct error as [| |[|c e]], kindLabel, status as [| |n]; simpl; discriminate.
Qed.

Lemma issuesBeforeProbe_hasTexts accountId account :
  (forall m k src, m <> "" -> appendMatchMetadata m k src <> "") ->
  Forall hasTexts (issuesBeforeProbe accountId account).
Proof.
  intros Happend. unfold issuesBeforeProbe. rewrite !Forall_app. repeat split.
  - unfold checkAllowUnmentionedGroups, push.
    destruct (strictTrue _); repeat constructor; discriminate.
  - unfold checkWildcardUnmentionedGroups, push.
    destruct (optionIsTrue _); repeat constructor; discriminate.
  - unfold checkUnresolvedGroups, push.
    destruct (unresolvedGroups _) as [n|]; [| constructor].
    destruct (numberTruthy n && numberGtZero n); repeat constructor; discriminate.
  - rewrite checkGroups_issues. cbn [app]. apply Forall_map, Forall_forall.
    intros g _. split; [| discriminate].
    unfold groupIssue. cbn [message]. apply Happend. discriminate.
  - unfold checkRuntimeConnection, push.
    destruct (strictTrue (running account) && negb (strictTrue (connected account)));
      [| constructor].
    constructor; [| constructor]. split; [discriminate |].
    cbn [issueFix]. destruct (isDnsResolutionFailure _); discriminate.
Qed.

Lemma checkProbe_hasTexts accountId account :
  Forall hasTexts (checkProbe accountId account []).
Proof.
  rewrite checkProbe_cases.
  destruct (readTelegramProbeSummary (probe account)) as [p|]; [| constructor].
  destruct (optionIsFalse (probeOk p)); [| constructor].
  constructor; [| constructor].
  destruct (isAuthErrorSummary _ _).
  - split; [apply formatProbeIssueLabel_nonempty | discriminate].
  - destruct (isNetworkErrorSummary _ _); (split; [discriminate |]).
    + unfold probeNetworkIssue. cbn [issueFix].
      destruct (isDnsResolutionFailure _); discriminate.
    + discriminate.
Qed.

(** X7: Every issue of the output has a message and a fix that are not empty,
    provided [appendMatchMetadata] does not turn a non-empty message into
    the empty string. *)
Theorem collectTelegramStatusIssues_texts_nonempty :
  forall (accounts : list JsValue) (issue : ChannelStatusIssue),
    (forall m k src, m <> "" -> appendMatchMetadata m k src <> "") ->
    In issue (collectTelegramStatusIssues accounts) ->
    message issue <> "" /\ issueFix issue <> "".
Proof.
  intros accounts issue Happend Hin.
  rewrite collectTelegramStatusIssues_flat_map in Hin.
  apply in_flat_map in Hin as (entry & _ & Hissue).
  rewrite accountStep_gate in Hissue.
  destruct (gate entry) as [[account accountId]|]; [| contradiction].
  cbn [app] in Hissue. apply in_app_or in Hissue as [H | H].
  - exact (proj1 (Forall_forall _ _)
             (issuesBeforeProbe_hasTexts accountId account Happend) _ H).
  - exact (proj1 (Forall_forall _ _) (checkProbe_hasTexts accountId account) _ H).
Qed.

(** X8: An auth issue comes from nothing but the probe-failure check: when the
    output holds an issue of kind auth, some gated account of the input has
    a record-shaped probe with ok exactly false that the auth classifier
    accepts, the issue is the auth issue of that probe, and its message
    begins with "Token validation failed". *)
Theorem auth_issue_comes_from_failed_probe :
  forall (accounts : list JsValue) (issue : ChannelStatusIssue),
    In issue (collectTelegramStatusIssues accounts) ->
    kind issue = KindAuth ->
    startsWith (message issue) "Token validation failed" = true /\
    exists (entry : JsValue) (account : TelegramAccountStatus)
           (p : TelegramProbeSummary),
      In entry accounts /\
      gate entry = Some (account, issueAccountId issue) /\
      readTelegramProbeSummary (probe account) = Some p /\
      probeOk p = Some false /\
      isAuthErrorSummary (orUndefined (probeError p)) (probeStatus p) = true /\
      issue = probeAuthIssue (issueAccountId issue) p.
Proof.
  intros accounts issue Hin Hkind.
  rewrite collectTelegramStatusIssues_flat_map in Hin.
  apply in_flat_map in Hin as (entry & Hentry & Hissue).
  rewrite accountStep_gate in Hissue.
  destruct (gate entry) as [[account accountId]|] eqn:Hgate; [| contradiction].
  cbn [app] in Hissue. apply in_app_or in Hissue as [H | H].
  - exfalso.
    destruct (issuesBeforeProbe_kinds accountId account) as (a & b & Hkinds & _).
    apply (in_map kind) in H. rewrite Hkinds, Hkind in H.
    apply in_app_or in H as [H | H]; apply repeat_spec in H; discriminate.
  - rewrite checkProbe_cases in H.
    destruct (readTelegramProbeSummary (probe account)) as [p|] eqn:Hread;
      [| contradiction].
    destruct (optionIsFalse (probeOk p)) eqn:Hok; [| contradiction].
    destruct H as [H | []].
    destruct (isAuthErrorSummary _ _) eqn:Hauth.
    + subst issue. split.
      * cbn [message probeAuthIssue].
        destruct p as [ok status error]. unfold formatProbeIssueLabel, template.
        cbn [probeError]. destruct error as [| |[|c e]]; reflexivity.
      * exists entry, account, p. cbn [issueAccountId probeAuthIssue].
        repeat split; try assumption.
        destruct (probeOk p) as [[|]|]; simpl in Hok; congruence.
    + exfalso. destruct (isNetworkErrorSummary _ _); subst issue; discriminate.
Qed.

(** X9: A failed probe that carries an HTTP status is never reported as
    unreachable: its issue is the auth issue or the generic "probe failed"
    issue, and its message shows the status. *)
Theorem probe_with_status_is_not_unreachable :
  forall (accountId : string) (account : TelegramAccountStatus)
         (p : TelegramProbeSummary) (n : JsNumber),
    readTelegramProbeSummary (probe account) = Some p ->
    probeOk p = Some false ->
    probeStatus p = Value n ->
    (checkProbe accountId account [] = [probeAuthIssue accountId p] \/
     checkProbe accountId account [] = [probeGenericIssue accountId p]) /\
    Forall (fun issue =>
              containsPhrase (message issue)
                             (" (HTTP " ++ numberToString n ++ ")")%string)
           (checkProbe accountId account []).
Proof.
  intros accountId account p n Hread Hok Hstatus.
  rewrite checkProbe_cases, Hread, Hok. cbn [optionIsFalse].
  rewrite Hstatus. cbn [isNetworkErrorSummary notNullish].
  destruct p as [ok status error]. cbn [probeStatus probeError] in *. subst status.
  destruct (isAuthErrorSummary _ _).
  - split; [left; reflexivity |]. constructor; [| constructor].
    unfold probeAuthIssue, formatProbeIssueLabel, template, containsPhrase.
    cbn [message probeStatus probeError String.concat].
    destruct error as [| |[|c e]].
    all: try (exists "Token validation failed"%string, ""%string;
              now rewrite !string_app_nil_r).
    exists "Token validation failed"%string, (": " ++ String c e)%string.
    cbn [append]. rewrite ?string_app_assoc. reflexivity.
  - split; [right; reflexivity |]. constructor; [| constructor].
    unfold probeGenericIssue, formatProbeIssueLabel, template, containsPhrase.
    cbn [message probeStatus probeError String.concat].
    destruct error as [| |[|c e]].
    all: try (exists "Telegram bot probe failed: Probe failed"%string, ""%string;
              now rewrite !string_app_nil_r).
    exists ("Telegram bot probe failed: " ++ String c e)%string, ""%string.
    rewrite !string_app_nil_r. cbn [append]. rewrite ?string_app_assoc. reflexivity.
Qed.

End Telegram.

(** ** The gate, with the helpers as the specification describes them *)

Lemma Shared_resolve_Some (account : TelegramAccountStatus) (id : string) :
  Shared.resolveEnabledConfiguredAccountId account = Some id ->
  accountId account = JString id /\
  enabled account = JBool true /\
  configured account = JBool true /\
  id <> EmptyString.
Proof.
  unfold Shared.resolveEnabledConfiguredAccountId.
  destruct (accountId account) as [| | | |s| |]; try discriminate.
  destruct (enabled account) as [| |[|]| | | |]; try discriminate.
  destruct (configured account) as [| |[|]| | | |]; try discriminate.
  destruct s as [|c s]; simpl; [discriminate |].
  intros H. injection H as <-. repeat split. discriminate.
Qed.

Lemma Shared_isRecord_structural : structural Shared.isRecord.
Proof. intros v w H. destruct H; reflexivity. Qed.

Lemma Shared_asString_structural : structural Shared.asString.
Proof. intros v w H. destruct H; reflexivity. Qed.

Lemma Shared_resolve_structural :
  structuralOnAccounts Shared.resolveEnabledConfiguredAccountId.
Proof.
  intros a b (Hid & Hen & Hconf & _).
  unfold Shared.resolveEnabledConfiguredAccountId.
  rewrite (deepEqual_strictTrue _ _ Hen), (deepEqual_strictTrue _ _ Hconf).
  destruct Hid; reflexivity.
Qed.

(** C1: a snapshot whose enabled and configured flags are not both exactly
    true, or whose account identifier is not a non-empty string, does not
    pass the gate: the loop body leaves the accumulator as it is, so none
    of the later checks runs for it, and the output is the output for the
    input sequence without that snapshot. *)
Theorem gated_out_account_emits_nothing :
  forall (isRecord : JsValue -> bool) (asString : JsValue -> option string)
         (appendMatchMetadata : string -> option string -> option string -> string)
         (numberToStringInexact : Q -> string)
         (before after : list JsValue) (entry : JsValue),
    ~ (getProp entry "enabled" = JBool true /\
       getProp entry "configured" = JBool true /\
       exists id, getProp entry "accountId" = JString id /\ id <> EmptyString) ->
    gate isRecord Shared.resolveEnabledConfiguredAccountId entry = None /\
    (forall issues,
       accountStep isRecord asString Shared.resolveEnabledConfiguredAccountId
         appendMatchMetadata numberToStringInexact issues entry = issues) /\
    collectTelegramStatusIssues isRecord asString
      Shared.resolveEnabledConfiguredAccountId appendMatchMetadata
      numberToStringInexact (before ++ entry :: after) =
    collectTelegramStatusIssues isRecord asString
      Shared.resolveEnabledConfiguredAccountId appendMatchMetadata
      numberToStringInexact (before ++ after).
Proof.
  intros isRecord asString appendMatchMetadata numberToStringInexact
    before after entry Hgate.
  assert (Hnone : gate isRecord Shared.resolveEnabledConfiguredAccountId entry = None).
  { destruct (gate isRecord Shared.resolveEnabledConfiguredAccountId entry)
      as [[account id]|] eqn:Hg; [| reflexivity].
    exfalso. apply Hgate.
    apply gate_Some in Hg as (Hread & Hid & _).
    apply Shared_resolve_Some in Hid as (H1 & H2 & H3 & H4).
    unfold readTelegramAccountStatus in Hread.
    destruct (isRecord entry); simpl in Hread; [| discriminate].
    injection Hread as <-. simpl in *. eauto. }
  assert (Hstep : forall issues,
             accountStep isRecord asString Shared.resolveEnabledConfiguredAccountId
               appendMatchMetadata numberToStringInexact issues entry = issues).
  { intros issues. now rewrite accountStep_gate, Hnone. }
  split; [exact Hnone | split; [exact Hstep |]].
  rewrite !collectTelegramStatusIssues_flat_map, !flat_map_app. simpl.
  now rewrite Hstep.
Qed.

(** C7: on the input of scenario B the output is exactly one issue; its
    kind is auth, and its message begins with "Token validation failed" and
    contains "401". *)
Theorem scenarioB_one_auth_issue :
  forall (descriptor : option string -> option string -> string)
         (numberToStringInexact : Q -> string),
    collectTelegramStatusIssues Shared.isRecord Shared.asString
      Shared.resolveEnabledConfiguredAccountId
      (Shared.appendMatchMetadata descriptor) numberToStringInexact
      [Scenario.accountB] = [Scenario.issueB] /\
    kind Scenario.issueB = KindAuth /\
    startsWith (message Scenario.issueB) "Token validation failed" = true /\
    includes (message Scenario.issueB) "401" = true.
Proof.
  intros descriptor numberToStringInexact.
  split; [| split; [| split]]; vm_compute; reflexivity.
Qed.

(** ** The other scenarios of the specification, evaluated *)

Example scenarioA_one_config_issue :
  map kind
      (collectTelegramStatusIssues Shared.isRecord Shared.asString
         Shared.resolveEnabledConfiguredAccountId
         (Shared.appendMatchMetadata Scenario.noDescriptor) Scenario.noInexact
         [Scenario.accountA]) = [KindConfig].
Proof. vm_compute. reflexivity. Qed.

Example scenarioC_probe_not_reachable :
  map (fun issue => (kind issue, message issue))
      (collectTelegramStatusIssues Shared.isRecord Shared.asString
         Shared.resolveEnabledConfiguredAccountId
         (Shared.appendMatchMetadata Scenario.noDescriptor) Scenario.noInexact
         [Scenario.accountC]) =
  [(KindRuntime, "Telegram bot API probe is not reachable: ECONNREFUSED"%string)].
Proof. vm_compute. reflexivity. Qed.

Example scenarioD_empty :
  collectTelegramStatusIssues Shared.isRecord Shared.asString
    Shared.resolveEnabledConfiguredAccountId
    (Shared.appendMatchMetadata Scenario.noDescriptor) Scenario.noInexact
    [Scenario.accountD] = [].
Proof. vm_compute. reflexivity. Qed.

Example scenarioE_group_not_reachable :
  map (fun issue => (kind issue, message issue))
      (collectTelegramStatusIssues Shared.isRecord Shared.asString
         Shared.resolveEnabledConfiguredAccountId
         (Shared.appendMatchMetadata Scenario.noDescriptor) Scenario.noInexact
         [Scenario.accountE]) =
  [(KindRuntime, "Group -100 not reachable by bot. status=kicked"%string)].
Proof. vm_compute. reflexivity. Qed.

Example auth_phrase_in_mixed_case_text :
  isAuthErrorSummary (Some "Bad Request: chat not found"%string) Null = true /\
  isAuthErrorSummary (Some "ECONNREFUSED"%string) Null = false /\
  isAuthErrorSummary None (Value (NFinite (inject_Z 403))) = true.
Proof. repeat split. Qed.

Example network_text_without_status :
  isNetworkErrorSummary (Some "connect ETIMEDOUT"%string) Undefined = true /\
  isNetworkErrorSummary (Some "chat not found"%string) Undefined = false /\
  isNetworkErrorSummary (Some "connect ETIMEDOUT"%string)
    (Value (NFinite (inject_Z 0))) = false.
Proof. repeat split. Qed.

(** ** The theorems at concrete inputs *)

Lemma accountB_deepEqual_reordered :
  deepEqual Scenario.accountB Scenario.accountB_reordered.
Proof.
  unfold Scenario.accountB, Scenario.accountB_reordered.
  apply DeepObject. intros key. by_key key; try apply deepEqual_refl.
  apply DeepObject. intros key'. by_key key'; try apply deepEqual_refl.
  apply DeepNumber. reflexivity.
Qed.

(** Scenario D next to scenario B: the disabled account a4 adds nothing to
    the issues of a2. *)
Lemma gated_out_account_emits_nothing_witness :
  ~ (getProp Scenario.accountD "enabled" = JBool true /\
     getProp Scenario.accountD "configured" = JBool true /\
     exists id, getProp Scenario.accountD "accountId" = JString id /\
                id <> EmptyString) /\
  collectTelegramStatusIssues Shared.isRecord Shared.asString
    Shared.resolveEnabledConfiguredAccountId
    (Shared.appendMatchMetadata Scenario.noDescriptor) Scenario.noInexact
    ([Scenario.accountB] ++ Scenario.accountD :: []) =
  collectTelegramStatusIssues Shared.isRecord Shared.asString
    Shared.resolveEnabledConfiguredAccountId
    (Shared.appendMatchMetadata Scenario.noDescriptor) Scenario.noInexact
    ([Scenario.accountB] ++ []).
Proof.
  assert (H : ~ (getProp Scenario.accountD "enabled" = JBool true /\
                 getProp Scenario.accountD "configured" = JBool true /\
                 exists id, getProp Scenario.accountD "accountId" = JString id /\
                            id <> EmptyString)).
  { intros (H & _). vm_compute in H. discriminate H. }
  split; [exact H |].
  exact (proj2 (proj2 (gated_out_account_emits_nothing
                         Shared.isRecord Shared.asString
                         (Shared.appendMatchMetadata Scenario.noDescriptor)
                         Scenario.noInexact
                         [Scenario.accountB] [] Scenario.accountD H))).
Defined.

(** The issue of scenario B carries the channel and the identifier a2. *)
Lemma collectTelegramStatusIssues_channel_and_account_witness :
  In Scenario.issueB
     (collectTelegramStatusIssues Shared.isRecord Shared.asString
        Shared.resolveEnabledConfiguredAccountId
        (Shared.appendMatchMetadata Scenario.noDescriptor) Scenario.noInexact
        [Scenario.accountB]) /\
  (channel Scenario.issueB = "telegram"%string /\
   exists (entry : JsValue) (account : TelegramAccountStatus),
     In entry [Scenario.accountB] /\
     In Scenario.issueB
        (accountStep Shared.isRecord Shared.asString
           Shared.resolveEnabledConfiguredAccountId
           (Shared.appendMatchMetadata Scenario.noDescriptor) Scenario.noInexact
           [] entry) /\
     readTelegramAccountStatus Shared.isRecord entry = Some account /\
     Shared.resolveEnabledConfiguredAccountId account =
       Some (issueAccountId Scenario.issueB) /\
     issueAccountId Scenario.issueB <> EmptyString).
Proof.
  assert (H : In Scenario.issueB
                (collectTelegramStatusIssues Shared.isRecord Shared.asString
                   Shared.resolveEnabledConfiguredAccountId
                   (Shared.appendMatchMetadata Scenario.noDescriptor)
                   Scenario.noInexact [Scenario.accountB])).
  { vm_compute. left. reflexivity. }
  split; [exact H |].
  exact (collectTelegramStatusIssues_channel_and_account
           Shared.isRecord Shared.asString Shared.resolveEnabledConfiguredAccountId
           (Shared.appendMatchMetadata Scenario.noDescriptor) Scenario.noInexact
           [Scenario.accountB] Scenario.issueB H).
Defined.

(** Scenario B and the same snapshot with its properties reordered give the
    same issues. *)
Lemma collectTelegramStatusIssues_deterministic_witness :
  Forall2 deepEqual [Scenario.accountB] [Scenario.accountB_reordered] /\
  collectTelegramStatusIssues Shared.isRecord Shared.asString
    Shared.resolveEnabledConfiguredAccountId
    (Shared.appendMatchMetadata Scenario.noDescriptor) Scenario.noInexact
    [Scenario.accountB] =
  collectTelegramStatusIssues Shared.isRecord Shared.asString
    Shared.resolveEnabledConfiguredAccountId
    (Shared.appendMatchMetadata Scenario.noDescriptor) Scenario.noInexact
    [Scenario.accountB_reordered].
Proof.
  assert (H : Forall2 deepEqual [Scenario.accountB] [Scenario.accountB_reordered]).
  { constructor; [exact accountB_deepEqual_reordered | constructor]. }
  split; [exact H |].
  exact (collectTelegramStatusIssues_deterministic
           Shared.isRecord Shared.asString Shared.resolveEnabledConfiguredAccountId
           (Shared.appendMatchMetadata Scenario.noDescriptor) Scenario.noInexact
           Shared_isRecord_structural Shared_asString_structural
           Shared_resolve_structural
           [Scenario.accountB] [Scenario.accountB_reordered] H).
Defined.

(** ** The Convex memory backend *)






Lemma split_nonempty (sep : ascii) (s : string) : Convex.split sep s <> [].
Proof.
  destruct s as [|c s]; simpl; [discriminate |].
  destruct (Ascii.eqb c sep); [discriminate |].
  destruct (Convex.split sep s); discriminate.
Qed.

Lemma split_length (sep : ascii) (s : string) :
  List.length (Convex.split sep s) = S (Convex.countUnit sep s).
Proof.
  induction s as [|c s IH]; simpl; [reflexivity |].
  destruct (Ascii.eqb c sep); simpl; [now rewrite IH |].
  destruct (Convex.split sep s) as [|first others] eqn:Hs; simpl in *; [discriminate IH | exact IH].
Qed.

(** X11: Every result of a search spans lines 1 to 1 + the number of line feeds
    of its snippet, so its line range is never empty. *)
Theorem search_line_ranges :
  forall (agentId query : string) (opts : option Convex.SearchOptions)
         (raceAction : Convex.SearchArgs -> Convex.Outcome (list Convex.SearchHit))
         (results : list Convex.MemorySearchResult),
    Convex.search agentId raceAction query opts = Convex.Returns results ->
    Forall (fun r =>
              Convex.startLine r = 1%Z /\
              Convex.endLine r =
                (1 + Z.of_nat (Convex.countUnit Convex.LF (Convex.snippet r)))%Z /\
              (Convex.startLine r <= Convex.endLine r)%Z)
           results.
Proof.
  intros agentId query opts raceAction results. unfold Convex.search.
  destruct (negb (stringTruthy (Convex.trim query))).
  - intros H. injection H as <-. constructor.
  - destruct (raceAction _) as [hits|e]; [| discriminate].
    intros H. injection H as <-. apply Forall_map, Forall_forall. intros hit _.
    unfold Convex.toSearchResult.
    cbn [Convex.startLine Convex.endLine Convex.snippet]. rewrite split_length. lia.
Qed.

Lemma join_cons (sep : ascii) (x y : string) (l : list string) :
  Convex.join sep (x :: y :: l) = (x ++ String sep (Convex.join sep (y :: l)))%string.
Proof. reflexivity. Qed.

Lemma join_split (sep : ascii) (s : string) :
  Convex.join sep (Convex.split sep s) = s.
Proof.
  induction s as [|c s IH]; [reflexivity |].
  pose proof (split_nonempty sep s) as Hne. simpl.
  destruct (Ascii.eqb_spec c sep) as [-> | Hc].
  - destruct (Convex.split sep s) as [|h t]; [contradiction |].
    rewrite join_cons, IH. reflexivity.
  - destruct (Convex.split sep s) as [|h [|y l]]; [contradiction | |].
    + unfold Convex.join in *. simpl in *. now rewrite IH.
    + rewrite join_cons in *. simpl. now rewrite IH.
Qed.

Lemma join_app (sep : ascii) (xs ys : list string) :
  xs <> [] -> ys <> [] ->
  Convex.join sep (xs ++ ys) =
  (Convex.join sep xs ++ String sep (Convex.join sep ys))%string.
Proof.
  intros Hxs Hys. induction xs as [|x xs IH]; [contradiction |].
  destruct xs as [|x' xs].
  - destruct ys as [|y ys]; [contradiction |]. reflexivity.
  - change ((x :: x' :: xs) ++ ys) with (x :: x' :: (xs ++ ys)).
    rewrite !join_cons. change (x' :: xs ++ ys) with ((x' :: xs) ++ ys).
    rewrite IH by discriminate. now rewrite string_app_assoc.
Qed.

Lemma slice_window {A : Type} (xs : list A) (a n : Z) :
  (0 <= a)%Z -> (0 <= n)%Z ->
  Convex.slice xs a (a + n) = firstn (Z.to_nat n) (skipn (Z.to_nat a) xs).
Proof.
  intros Ha Hn. unfold Convex.slice, Convex.relativeIndex.
  destruct (Z.ltb_spec a 0) as [?|_]; [lia |].
  destruct (Z.ltb_spec (a + n) 0) as [?|_]; [lia |].
  set (len := Z.of_nat (List.length xs)).
  destruct (Z.le_gt_cases a len) as [Hle | Hgt].
  - rewrite (Z.min_l a len) by lia.
    destruct (Z.le_gt_cases (a + n) len) as [Hle' | Hgt'].
    + rewrite (Z.min_l (a + n) len) by lia. f_equal. lia.
    + rewrite (Z.min_r (a + n) len) by lia.
      rewrite !firstn_all2; [reflexivity | |]; rewrite length_skipn; unfold len in *; lia.
  - rewrite (Z.min_r a len), (Z.min_r (a + n) len) by lia.
    rewrite !skipn_all2 by (unfold len in *; lia).
    now rewrite !firstn_nil.
Qed.

Lemma slice_whole {A : Type} (xs : list A) :
  Convex.slice xs 0 (0 + Z.of_nat (List.length xs)) = xs.
Proof.
  rewrite slice_window by lia. simpl. rewrite Nat2Z.id. apply firstn_all.
Qed.

Lemma readFile_served workspaceDir pathResolve fsReadFile rel fileText a n :
  Convex.servesFile workspaceDir pathResolve fsReadFile rel fileText ->
  Convex.readFile (Some workspaceDir) pathResolve fsReadFile
    {| Convex.relPath := Some rel; Convex.from := a; Convex.lines := n |} =
  Convex.Returns
    (Convex.join Convex.LF
       (Convex.slice (Convex.split Convex.LF fileText)
          (match a with Some k => k | None => 0%Z end)
          (match a with Some k => k | None => 0%Z end +
           match n with
           | Some k => k
           | None => Z.of_nat (List.length (Convex.split Convex.LF fileText))
           end)),
     Convex.trim rel).
Proof.
  intros (Hrel & Hws & Hprefix & Hfs). unfold Convex.readFile. simpl.
  apply stringTruthy_nonempty in Hrel, Hws.
  now rewrite Hrel, Hws, Hprefix, Hfs.
Qed.

(** X12: Read without [from] and [lines], a file comes back as it is stored:
    splitting the text into lines and joining them again loses nothing. *)
Theorem readFile_whole_file :
  forall (workspaceDir : string) (pathResolve : string -> string -> string)
         (fsReadFile : string -> option string) (rel fileText : string),
    Convex.servesFile workspaceDir pathResolve fsReadFile rel fileText ->
    Convex.readFile (Some workspaceDir) pathResolve fsReadFile
      {| Convex.relPath := Some rel; Convex.from := None; Convex.lines := None |} =
    Convex.Returns (fileText, Convex.trim rel).
Proof.
  intros workspaceDir pathResolve fsReadFile rel fileText H.
  rewrite (readFile_served _ _ _ _ _ None None H).
  now rewrite slice_whole, join_split.
Qed.

(** X13: With [from >= 0] and [lines >= 0] the text returned is the lines
    [from], [from + 1], ... of the file, counted from zero, at most [lines]
    of them, joined by line feeds; a [from] at or past the number of lines
    gives the empty text and no error. *)
Theorem readFile_window :
  forall (workspaceDir : string) (pathResolve : string -> string -> string)
         (fsReadFile : string -> option string) (rel fileText : string)
         (a n : Z),
    Convex.servesFile workspaceDir pathResolve fsReadFile rel fileText ->
    (0 <= a)%Z -> (0 <= n)%Z ->
    Convex.readFile (Some workspaceDir) pathResolve fsReadFile
      {| Convex.relPath := Some rel; Convex.from := Some a;
         Convex.lines := Some n |} =
    Convex.Returns
      (Convex.join Convex.LF
         (firstn (Z.to_nat n)
                 (skipn (Z.to_nat a) (Convex.split Convex.LF fileText))),
       Convex.trim rel) /\
    ((Z.of_nat (List.length (Convex.split Convex.LF fileText)) <= a)%Z ->
     Convex.readFile (Some workspaceDir) pathResolve fsReadFile
       {| Convex.relPath := Some rel; Convex.from := Some a;
          Convex.lines := Some n |} =
     Convex.Returns (EmptyString, Convex.trim rel)).
Proof.
  intros workspaceDir pathResolve fsReadFile rel fileText a n H Ha Hn.
  rewrite (readFile_served _ _ _ _ _ (Some a) (Some n) H).
  rewrite slice_window by assumption. split; [reflexivity |].
  intros Hlen. rewrite skipn_all2 by lia. now rewrite firstn_nil.
Qed.

Lemma firstn_add {A : Type} (n m : nat) (l : list A) :
  firstn (n + m) l = firstn n l ++ firstn m (skipn n l).
Proof.
  revert l. induction n as [|n IH]; intros l; simpl; [reflexivity |].
  destruct l as [|x l]; simpl; [now rewrite firstn_nil | now rewrite IH].
Qed.

Lemma firstn_skipn_nonempty {A : Type} (n a : nat) (l : list A) :
  0 < n -> a < List.length l -> firstn n (skipn a l) <> [].
Proof.
  intros Hn Ha H. apply (f_equal (@List.length A)) in H.
  rewrite length_firstn, length_skipn in H. simpl in H. lia.
Qed.

(** X14: Windows compose: two windows that follow one another, both non-empty
    and the second starting inside the file, give texts whose
    concatenation with a line feed between them is the text of the window
    that covers both. *)
Theorem readFile_windows_compose :
  forall (workspaceDir : string) (pathResolve : string -> string -> string)
         (fsReadFile : string -> option string) (rel fileText : string)
         (a n m : Z),
    Convex.servesFile workspaceDir pathResolve fsReadFile rel fileText ->
    (0 <= a)%Z -> (0 < n)%Z -> (0 < m)%Z ->
    (a + n < Z.of_nat (List.length (Convex.split Convex.LF fileText)))%Z ->
    exists first second,
      Convex.readFile (Some workspaceDir) pathResolve fsReadFile
        {| Convex.relPath := Some rel; Convex.from := Some a;
           Convex.lines := Some n |} =
        Convex.Returns (first, Convex.trim rel) /\
      Convex.readFile (Some workspaceDir) pathResolve fsReadFile
        {| Convex.relPath := Some rel; Convex.from := Some (a + n)%Z;
           Convex.lines := Some m |} =
        Convex.Returns (second, Convex.trim rel) /\
      Convex.readFile (Some workspaceDir) pathResolve fsReadFile
        {| Convex.relPath := Some rel; Convex.from := Some a;
           Convex.lines := Some (n + m)%Z |} =
        Convex.Returns ((first ++ String Convex.LF second)%string, Convex.trim rel).
Proof.
  intros workspaceDir pathResolve fsReadFile rel fileText a n m H Ha Hn Hm Hlen.
  rewrite !(readFile_served _ _ _ _ _ _ _ H).
  rewrite !slice_window by lia.
  set (all := Convex.split Convex.LF fileText) in *.
  eexists _, _. split; [reflexivity | split; [reflexivity |]].
  f_equal. f_equal.
  rewrite (Z2Nat.inj_add n m), (Z2Nat.inj_add a n) by lia.
  rewrite firstn_add, skipn_skipn, (Nat.add_comm (Z.to_nat n) (Z.to_nat a)).
  apply join_app; apply firstn_skipn_nonempty; lia.
Qed.

(** X15: [readFile] returns a text exactly when its four guards pass: the path
    is not blank, a workspace directory is configured, the resolved path
    begins with the workspace directory, and the file can be read; the
    path it returns is the trimmed path. *)
Theorem readFile_returns_iff_guards :
  forall (workspaceDir : option string) (pathResolve : string -> string -> string)
         (fsReadFile : string -> option string) (params : Convex.ReadFileParams)
         (p : string),
    (exists text,
       Convex.readFile workspaceDir pathResolve fsReadFile params =
       Convex.Returns (text, p)) <->
    (exists dir rel fileText,
       workspaceDir = Some dir /\
       Convex.relPath params = Some rel /\
       p = Convex.trim rel /\
       Convex.servesFile dir pathResolve fsReadFile rel fileText).
Proof.
  intros workspaceDir pathResolve fsReadFile [rel a n] p. split.
  - intros [text H]. unfold Convex.readFile in H. simpl in H.
    destruct rel as [rel|]; simpl in H; [| discriminate].
    destruct (stringTruthy (Convex.trim rel)) eqn:Hrel; simpl in H; [| discriminate].
    destruct workspaceDir as [dir|]; [| discriminate].
    destruct (stringTruthy dir) eqn:Hdir; simpl in H; [| discriminate].
    destruct (startsWith _ dir) eqn:Hprefix; simpl in H; [| discriminate].
    destruct (fsReadFile _) as [fileText|] eqn:Hfs; [| discriminate].
    injection H as _ <-. exists dir, rel, fileText.
    repeat split; try assumption; now apply stringTruthy_nonempty.
  - intros (dir & rel' & fileText & -> & Hrel & -> & H). simpl in Hrel. subst rel.
    eexists. apply (readFile_served _ _ _ _ _ a n H).
Qed.

(** ** The logging wrapper *)

Section WrapperProperties.

Variable Err : Type.
Variable T : Type.
Variable formatErrorMessage : Err -> string.
Variable danger : string -> string.
Variable fallbackError : string -> ApiLogging.Callback Err.

Local Abbreviation wrapper :=
  (ApiLogging.withTelegramApiErrorLogging Err T formatErrorMessage danger fallbackError).
Local Abbreviation resolveStatus := (ApiLogging.resolveTelegramApiErrorStatus Err).
Local Abbreviation resolveLogger := (ApiLogging.resolveTelegramApiLogger Err fallbackError).
Local Abbreviation logLine := (ApiLogging.logLine Err formatErrorMessage danger).
Local Abbreviation callbackThrows :=
  (ApiLogging.callbackThrows Err formatErrorMessage danger fallbackError).

(** X16: The wrapper is transparent for the outcome of [fn].  It ends in a value
    exactly when [fn] does, with that value and without calling anything.
    When [fn] fails with [err] the wrapper always ends in a thrown error,
    which is [err] itself unless one of the callbacks throws. *)
Theorem withTelegramApiErrorLogging_outcome :
  forall (operation : string) (fn : T + Err)
         (runtime : option (ApiLogging.RuntimeEnv Err))
         (logger : option (string -> ApiLogging.Callback Err))
         (shouldLog : option (Err -> bool + Err)),
    match fn with
    | inl value =>
        wrapper operation fn runtime logger shouldLog = ([], inl value)
    | inr err =>
        exists e,
          snd (wrapper operation fn runtime logger shouldLog) = inr e /\
          (e = err \/ callbackThrows operation err runtime logger shouldLog e) /\
          ((forall e', ~ callbackThrows operation err runtime logger shouldLog e') ->
           e = err)
    end.
Proof.
  intros operation [value | err] runtime logger shouldLog; [reflexivity |].
  unfold ApiLogging.withTelegramApiErrorLogging, ApiLogging.callbackThrows,
    ApiLogging.logLine.
  destruct (resolveLogger runtime logger) as [sink log] eqn:Hlog.
  set (line := danger (template ["telegram "%string; operation;
                                 " failed: "%string; formatErrorMessage err])).
  destruct (log line) as [e3|] eqn:Hl;
    (destruct (resolveStatus runtime) as [handler|] eqn:Hstatus;
     [destruct (handler operation err) as [e1|] eqn:Hh |]);
    (destruct shouldLog as [f|]; [destruct (f err) as [[|] | e2] eqn:Hf |]);
    simpl; rewrite ?Hl; simpl;
    eexists; (split; [reflexivity |]);
    (split;
     [ first
         [ left; reflexivity
         | right; left; eexists; split; [reflexivity | eassumption]
         | right; right; left; eexists; split; [reflexivity | eassumption]
         | right; right; right; (eassumption || reflexivity) ]
     | intros Hnone;
       first
         [ reflexivity
         | exfalso; eapply Hnone; left; eexists; split; [reflexivity | eassumption]
         | exfalso; eapply Hnone; right; left; eexists; split;
           [reflexivity | eassumption]
         | exfalso; eapply Hnone; right; right; (eassumption || reflexivity) ] ]).
Qed.

(** X17: When [fn] fails the wrapper calls each callback at most once and in a
    fixed order: the status handler (exactly when the runtime has one), then
    [shouldLog] (only when it is given), then the logger chosen by
    [resolveTelegramApiLogger], with the line "telegram <operation> failed:
    <error text>" passed through [danger] (only when [shouldLog] is absent
    or has answered true). *)
Theorem withTelegramApiErrorLogging_calls :
  forall (operation : string) (err : Err)
         (runtime : option (ApiLogging.RuntimeEnv Err))
         (logger : option (string -> ApiLogging.Callback Err))
         (shouldLog : option (Err -> bool + Err)),
    exists a b c : bool,
      fst (wrapper operation (inr err) runtime logger shouldLog) =
        ApiLogging.optional a (ApiLogging.CallStatusHandler Err operation err) ++
        ApiLogging.optional b (ApiLogging.CallShouldLog Err err) ++
        ApiLogging.optional c
          (ApiLogging.CallLog Err (fst (resolveLogger runtime logger))
                              (logLine operation err)) /\
      (a = true <-> resolveStatus runtime <> None) /\
      (b = true -> shouldLog <> None) /\
      (c = true ->
       shouldLog = None \/ exists f, shouldLog = Some f /\ f err = inl true).
Proof.
  intros operation err runtime logger shouldLog.
  unfold ApiLogging.withTelegramApiErrorLogging, ApiLogging.logLine.
  destruct (resolveLogger runtime logger) as [sink log] eqn:Hlog.
  set (line := danger (template ["telegram "%string; operation;
                                 " failed: "%string; formatErrorMessage err])).
  destruct (log line) as [e3|] eqn:Hl;
    (destruct (resolveStatus runtime) as [handler|] eqn:Hstatus;
     [destruct (handler operation err) as [e1|] eqn:Hh |]);
    (destruct shouldLog as [f|]; [destruct (f err) as [[|] | e2] eqn:Hf |]);
    simpl; rewrite ?Hl; simpl;
    solve [ (exists true + exists false);
            (exists true + exists false);
            (exists true + exists false);
            (split; [reflexivity |]);
            repeat split; intros;
            first [ discriminate
                  | congruence
                  | left; reflexivity
                  | right; eexists; split; [reflexivity | eassumption] ] ].
Qed.

End WrapperProperties.

(** ** The further properties at concrete inputs *)

Lemma Shared_appendMatchMetadata_nonempty
  (descriptor : option string -> option string -> string)
  (m : string) (k src : option string) :
  m <> EmptyString -> Shared.appendMatchMetadata descriptor m k src <> EmptyString.
Proof.
  intros Hm. unfold Shared.appendMatchMetadata.
  destruct k, src; try assumption; destruct m; simpl; congruence.
Qed.

Lemma scenarioB_issue_in_output :
  In Scenario.issueB
     (collectTelegramStatusIssues Shared.isRecord Shared.asString
        Shared.resolveEnabledConfiguredAccountId
        (Shared.appendMatchMetadata Scenario.noDescriptor) Scenario.noInexact
        [Scenario.accountB]).
Proof. vm_compute. left. reflexivity. Qed.

Lemma collectTelegramStatusIssues_texts_nonempty_witness :
  (forall m k src,
     m <> EmptyString ->
     Shared.appendMatchMetadata Scenario.noDescriptor m k src <> EmptyString) /\
  In Scenario.issueB
     (collectTelegramStatusIssues Shared.isRecord Shared.asString
        Shared.resolveEnabledConfiguredAccountId
        (Shared.appendMatchMetadata Scenario.noDescriptor) Scenario.noInexact
        [Scenario.accountB]) /\
  (message Scenario.issueB <> EmptyString /\
   issueFix Scenario.issueB <> EmptyString).
Proof.
  split; [exact (Shared_appendMatchMetadata_nonempty Scenario.noDescriptor) |].
  split; [exact scenarioB_issue_in_output |].
  exact (collectTelegramStatusIssues_texts_nonempty
           Shared.isRecord Shared.asString Shared.resolveEnabledConfiguredAccountId
           (Shared.appendMatchMetadata Scenario.noDescriptor) Scenario.noInexact
           [Scenario.accountB] Scenario.issueB
           (Shared_appendMatchMetadata_nonempty Scenario.noDescriptor)
           scenarioB_issue_in_output).
Defined.

Lemma auth_issue_comes_from_failed_probe_witness :
  In Scenario.issueB
     (collectTelegramStatusIssues Shared.isRecord Shared.asString
        Shared.resolveEnabledConfiguredAccountId
        (Shared.appendMatchMetadata Scenario.noDescriptor) Scenario.noInexact
        [Scenario.accountB]) /\
  kind Scenario.issueB = KindAuth /\
  (startsWith (message Scenario.issueB) "Token validation failed" = true /\
   exists (entry : JsValue) (account : TelegramAccountStatus)
          (p : TelegramProbeSummary),
     In entry [Scenario.accountB] /\
     gate Shared.isRecord Shared.resolveEnabledConfiguredAccountId entry =
       Some (account, issueAccountId Scenario.issueB) /\
     readTelegramProbeSummary Shared.isRecord Shared.asString (probe account) =
       Some p /\
     probeOk p = Some false /\
     isAuthErrorSummary (orUndefined (probeError p)) (probeStatus p) = true /\
     Scenario.issueB =
       probeAuthIssue Scenario.noInexact (issueAccountId Scenario.issueB) p).
Proof.
  split; [exact scenarioB_issue_in_output |].
  split; [reflexivity |].
  exact (auth_issue_comes_from_failed_probe
           Shared.isRecord Shared.asString Shared.resolveEnabledConfiguredAccountId
           (Shared.appendMatchMetadata Scenario.noDescriptor) Scenario.noInexact
           [Scenario.accountB] Scenario.issueB
           scenarioB_issue_in_output eq_refl).
Defined.

Lemma demo_search :
  Convex.search "agent" Convex.demoAction "  alpha " None =
  Convex.Returns [Convex.toSearchResult Convex.demoHit].
Proof. reflexivity. Qed.

Lemma search_line_ranges_witness :
  Convex.search "agent" Convex.demoAction "  alpha " None =
    Convex.Returns [Convex.toSearchResult Convex.demoHit] /\
  Forall (fun r =>
            Convex.startLine r = 1%Z /\
            Convex.endLine r =
              (1 + Z.of_nat (Convex.countUnit Convex.LF (Convex.snippet r)))%Z /\
            (Convex.startLine r <= Convex.endLine r)%Z)
         [Convex.toSearchResult Convex.demoHit].
Proof.
  split; [exact demo_search |].
  exact (search_line_ranges "agent" "  alpha " None Convex.demoAction
           [Convex.toSearchResult Convex.demoHit] demo_search).
Defined.

Lemma demo_servesFile :
  Convex.servesFile "/ws" Convex.demoResolve Convex.demoFs " notes.md "
    Convex.demoText.
Proof.
  unfold Convex.servesFile. repeat split; vm_compute; (discriminate || reflexivity).
Qed.

Lemma readFile_whole_file_witness :
  Convex.servesFile "/ws" Convex.demoResolve Convex.demoFs " notes.md "
    Convex.demoText /\
  Convex.readFile (Some "/ws"%string) Convex.demoResolve Convex.demoFs
    {| Convex.relPath := Some " notes.md "%string;
       Convex.from := None; Convex.lines := None |} =
  Convex.Returns (Convex.demoText, "notes.md"%string).
Proof.
  split; [exact demo_servesFile |].
  exact (readFile_whole_file "/ws" Convex.demoResolve Convex.demoFs " notes.md "
           Convex.demoText demo_servesFile).
Defined.

Lemma readFile_window_witness :
  Convex.servesFile "/ws" Convex.demoResolve Convex.demoFs " notes.md "
    Convex.demoText /\
  (0 <= 1)%Z /\
  Convex.readFile (Some "/ws"%string) Convex.demoResolve Convex.demoFs
    {| Convex.relPath := Some " notes.md "%string;
       Convex.from := Some 1%Z; Convex.lines := Some 1%Z |} =
  Convex.Returns ("beta"%string, "notes.md"%string).
Proof.
  assert (H : (0 <= 1)%Z) by lia.
  split; [exact demo_servesFile | split; [exact H |]].
  exact (proj1 (readFile_window "/ws" Convex.demoResolve Convex.demoFs " notes.md "
                  Convex.demoText 1 1 demo_servesFile H H)).
Defined.

Lemma readFile_windows_compose_witness :
  Convex.servesFile "/ws" Convex.demoResolve Convex.demoFs " notes.md "
    Convex.demoText /\
  (0 <= 0)%Z /\ (0 < 1)%Z /\
  (0 + 1 < Z.of_nat (List.length (Convex.split Convex.LF Convex.demoText)))%Z /\
  exists first second,
    Convex.readFile (Some "/ws"%string) Convex.demoResolve Convex.demoFs
      {| Convex.relPath := Some " notes.md "%string;
         Convex.from := Some 0%Z; Convex.lines := Some 1%Z |} =
      Convex.Returns (first, Convex.trim " notes.md ") /\
    Convex.readFile (Some "/ws"%string) Convex.demoResolve Convex.demoFs
      {| Convex.relPath := Some " notes.md "%string;
         Convex.from := Some (0 + 1)%Z; Convex.lines := Some 1%Z |} =
      Convex.Returns (second, Convex.trim " notes.md ") /\
    Convex.readFile (Some "/ws"%string) Convex.demoResolve Convex.demoFs
      {| Convex.relPath := Some " notes.md "%string;
         Convex.from := Some 0%Z; Convex.lines := Some (1 + 1)%Z |} =
      Convex.Returns ((first ++ String Convex.LF second)%string,
                      Convex.trim " notes.md ").
Proof.
  assert (H0 : (0 <= 0)%Z) by lia.
  assert (H1 : (0 < 1)%Z) by lia.
  assert (H2 : (0 + 1 <
                Z.of_nat (List.length (Convex.split Convex.LF Convex.demoText)))%Z)
    by (vm_compute; reflexivity).
  split; [exact demo_servesFile |].
  split; [exact H0 | split; [exact H1 | split; [exact H2 |]]].
  exact (readFile_windows_compose "/ws" Convex.demoResolve Convex.demoFs
           " notes.md " Convex.demoText 0 1 1 demo_servesFile H0 H1 H1 H2).
Defined.

Lemma probe_with_status_is_not_unreachable_witness :
  let account :=
    {| accountId := JString "a2"; enabled := JBool true; configured := JBool true;
       allowUnmentionedGroups := JUndefined; audit := JUndefined;
       probe := getProp Scenario.accountB "probe";
       running := JUndefined; connected := JUndefined; lastError := JUndefined |} in
  let p :=
    {| probeOk := Some false;
       probeStatus := Value (NFinite (inject_Z 401));
       probeError := Value "Unauthorized"%string |} in
  readTelegramProbeSummary Shared.isRecord Shared.asString (probe account) = Some p /\
  (checkProbe Shared.isRecord Shared.asString Scenario.noInexact "a2" account [] =
     [probeAuthIssue Scenario.noInexact "a2" p] \/
   checkProbe Shared.isRecord Shared.asString Scenario.noInexact "a2" account [] =
     [probeGenericIssue Scenario.noInexact "a2" p]).
Proof.
  cbv zeta.
  assert (H : readTelegramProbeSummary Shared.isRecord Shared.asString
                (getProp Scenario.accountB "probe") =
              Some {| probeOk := Some false;
                      probeStatus := Value (NFinite (inject_Z 401));
                      probeError := Value "Unauthorized"%string |})
    by reflexivity.
  split; [exact H |].
  exact (proj1 (probe_with_status_is_not_unreachable
                  Shared.isRecord Shared.asString Scenario.noInexact "a2"
                  {| accountId := JString "a2"; enabled := JBool true;
                     configured := JBool true;
                     allowUnmentionedGroups := JUndefined; audit := JUndefined;
                     probe := getProp Scenario.accountB "probe";
                     running := JUndefined; connected := JUndefined;
                     lastError := JUndefined |}
                  {| probeOk := Some false;
                     probeStatus := Value (NFinite (inject_Z 401));
                     probeError := Value "Unauthorized"%string |}
                  (NFinite (inject_Z 401)) H eq_refl eq_refl)).
Defined.
